(** * newbv backend: the contact directory and the CPC contactability gate

    A shallow embedding of
      - [src/unnamed/part_000]  (class [CpcValidationService]), and
      - [src/backend/src/contacts/contacts.service.ts] (class [ContactsService]),
    followed by the properties of the specification that concern them.

    Conventions.
      - A JavaScript string is a [string]; each [ascii] stands for one UTF-16
        code unit in the range 0..255.  A literal of the source that has a
        character above 127 is spelled with its code unit ([iacute], [atilde]).
      - An [async] method is a function from the state of its collaborators
        (partner API, database, clock) to a completion, [Resolved] or
        [Rejected], and the new state.
      - Logger calls are left out: no property below concerns the log. *)

From Stdlib Require Import String Ascii List ZArith Bool Lia Permutation Sorted.
From Stdlib Require Import DecimalString.
Import ListNotations.
Local Open Scope Z_scope.
Local Open Scope string_scope.

(** ** The JavaScript built-ins the two services use *)

Module Js.

Definition code (c : ascii) : N := N_of_ascii c.

(** [\d] of a regular expression without the [u] flag: [0-9]. *)
Definition isDigit (c : ascii) : bool :=
  ((48 <=? code c) && (code c <=? 57))%N.

Fixpoint filter (f : ascii -> bool) (s : string) : string :=
  match s with
  | EmptyString => EmptyString
  | String c s' => if f c then String c (filter f s') else filter f s'
  end.

(** [s.replace(/\D/g, '')] *)
Definition replaceNonDigits (s : string) : string := filter isDigit s.

(** [s.startsWith(p)] *)
Fixpoint startsWith (s p : string) {struct p} : bool :=
  match p, s with
  | EmptyString, _ => true
  | String _ _, EmptyString => false
  | String a p', String b s' => (a =? b)%char && startsWith s' p'
  end.

(** [s.substring(n)] for [0 <= n]: the string without its first [n] code
    units (the empty string when it has no more than [n]). *)
Fixpoint substring (n : nat) (s : string) : string :=
  match n, s with
  | O, _ => s
  | S _, EmptyString => EmptyString
  | S n', String _ s' => substring n' s'
  end.

(** Truthiness of an optional string: [undefined] and [''] are falsy. *)
Definition truthy (s : option string) : bool :=
  match s with
  | Some s => negb (s =? "")
  | None => false
  end.

(** Truthiness of an optional number: [undefined] and [0] are falsy. *)
Definition truthyNumber (n : option Z) : bool :=
  match n with
  | Some n => negb (n =? 0)%Z
  | None => false
  end.

(** [a || b] on strings where [a] may be [undefined]. *)
Definition orElse (a : option string) (b : string) : string :=
  match a with
  | Some s => if s =? "" then b else s
  | None => b
  end.

(** WhiteSpace and LineTerminator code units below 256. *)
Definition isWhiteSpace (c : ascii) : bool :=
  ((9 <=? code c) && (code c <=? 13) || (code c =? 32) || (code c =? 160))%N.

Fixpoint trimStart (s : string) : string :=
  match s with
  | EmptyString => EmptyString
  | String c s' => if isWhiteSpace c then trimStart s' else s
  end.

Fixpoint trimEnd (s : string) : string :=
  match s with
  | EmptyString => EmptyString
  | String c s' =>
      let t := trimEnd s' in
      if isWhiteSpace c && (t =? "") then EmptyString else String c t
  end.

(** [s.trim()] *)
Definition trim (s : string) : string := trimEnd (trimStart s).

(** [`${n}`] for an integer [n]. *)
Definition numberToString (n : Z) : string :=
  NilZero.string_of_int (Z.to_int n).

Definition hexDigit (n : N) : ascii :=
  if (n <? 10)%N then ascii_of_N (48 + n) else ascii_of_N (55 + n).

(** [%XX] for one byte. *)
Definition percent (b : N) : string :=
  String "%" (String (hexDigit (b / 16)) (String (hexDigit (b mod 16)) "")).

(** The characters [encodeURIComponent] leaves alone:
    [A-Z a-z 0-9 - _ . ! ~ * ' ( )]. *)
Definition isUnreserved (c : ascii) : bool :=
  let n := code c in
  ((65 <=? n) && (n <=? 90) || (97 <=? n) && (n <=? 122) || isDigit c
   || (n =? 45) || (n =? 95) || (n =? 46) || (n =? 33) || (n =? 126)
   || (n =? 42) || (n =? 39) || (n =? 40) || (n =? 41))%N.

(** The UTF-8 encoding of one code unit below 256. *)
Definition utf8 (c : ascii) : list N :=
  let n := code c in
  if (n <? 128)%N then [n] else [(192 + n / 64)%N; (128 + n mod 64)%N].

(** [encodeURIComponent(s)].  It raises URIError only on a lone surrogate,
    and there is none among the code units 0..255. *)
Fixpoint encodeURIComponent (s : string) : string :=
  match s with
  | EmptyString => EmptyString
  | String c s' =>
      (if isUnreserved c then String c ""
       else String.concat "" (map percent (utf8 c)))
      ++ encodeURIComponent s'
  end.

Fixpoint utf8String (s : string) : list N :=
  match s with
  | EmptyString => []
  | String c s' => (utf8 c ++ utf8String s')%list
  end.

Definition base64Digit (n : N) : ascii :=
  if (n <? 26)%N then ascii_of_N (65 + n)
  else if (n <? 52)%N then ascii_of_N (71 + n)
  else if (n <? 62)%N then ascii_of_N (n - 4)
  else if (n =? 62)%N then "+"%char else "/"%char.

(** [Buffer.toString('base64')] on a list of bytes. *)
Fixpoint base64 (bs : list N) : string :=
  match bs with
  | [] => ""
  | [a] =>
      String (base64Digit (a / 4))
        (String (base64Digit (a mod 4 * 16)) "==")
  | [a; b] =>
      String (base64Digit (a / 4))
        (String (base64Digit (a mod 4 * 16 + b / 16))
           (String (base64Digit (b mod 16 * 4)) "="))
  | a :: b :: c :: rest =>
      String (base64Digit (a / 4))
        (String (base64Digit (a mod 4 * 16 + b / 16))
           (String (base64Digit (b mod 16 * 4 + c / 64))
              (String (base64Digit (c mod 64)) (base64 rest))))
  end%N.

(** [hay.includes(needle)]: [needle] occurs in [hay]. *)
Fixpoint contains (hay needle : string) : bool :=
  startsWith hay needle
  || match hay with
     | EmptyString => false
     | String _ hay' => contains hay' needle
     end.

Definition iacute : ascii := ascii_of_N 237.
Definition atilde : ascii := ascii_of_N 227.

End Js.

(** ** Asynchronous code: state passing with rejection *)

Section Promise.

Context {W E : Type}.

Inductive Completion (A : Type) : Type :=
| Resolved (a : A)
| Rejected (e : E).

Definition Promise (A : Type) : Type := W -> Completion A * W.

Definition resolve {A} (a : A) : Promise A := fun w => (Resolved A a, w).

Definition throw {A} (e : E) : Promise A := fun w => (Rejected A e, w).

(** [const x = await c; k x] *)
Definition await {A B} (c : Promise A) (k : A -> Promise B) : Promise B :=
  fun w =>
    match c w with
    | (Resolved _ a, w') => k a w'
    | (Rejected _ e, w') => (Rejected B e, w')
    end.

(** [try { c } catch (error) { return h error }] *)
Definition tryCatch {A} (c : Promise A) (h : E -> Promise A) : Promise A :=
  fun w =>
    match c w with
    | (Resolved _ a, w') => (Resolved A a, w')
    | (Rejected _ e, w') => h e w'
    end.

(** [c] keeps the invariant [P] of the state, whether it resolves or
    rejects. *)
Definition preserves (P : W -> Prop) {A} (c : Promise A) : Prop :=
  forall w, P w -> P (snd (c w)).

End Promise.

Arguments Completion : clear implicits.
Arguments Promise : clear implicits.
Arguments Resolved {E A} a.
Arguments Rejected {E A} e.

Notation "x <- c ;; k" := (await c (fun x => k))
  (at level 61, c at next level, right associativity).

(** ** [CpcValidationService] (src/unnamed/part_000) *)

Module CpcValidationService.

Record CpcApiResponse := { sucesso : bool; mensagem : string }.

Record CanContactResult := { allowed : bool; reason : string }.

(** *** The HTTP client

    axios is a library, not code of this repository.  A request is recorded
    in [calls] when [axios.get] or [axios.post] is called; the partner
    answers from the calls seen so far and the request. *)

Inductive Method := GET | POST.

(** The JSON body of register-acionamento. *)
Record Payload := { telefone : string; contrato : string; segmento : string }.

Record Request := {
  method : Method;
  url : string;
  headers : list (string * string);
  body : option Payload;
  timeout : Z
}.

Record AxiosResponse (T : Type) := { status : Z; data : T }.
Arguments status {T} _.
Arguments data {T} _.

(** The body of an error response: the source reads it as
    [errorData?.mensagem], so it may be missing, or lack the field. *)
Inductive ErrorData :=
| NoData
| Data (mensagem : option string).

(** The value a [catch] clause receives.  [response] is set when the
    partner answered with an error status, [request] is truthy when the
    request was made and nothing came back; any other exception has
    neither. *)
Record AxiosError := {
  response : option (AxiosResponse ErrorData);
  request : bool;
  message : string
}.

Record World := {
  partner : list Request -> Request ->
            AxiosError + AxiosResponse CpcApiResponse;
  calls : list Request
}.

Definition Async := Promise World AxiosError.

Definition axios (req : Request) : Async (AxiosResponse CpcApiResponse) :=
  fun w =>
    let w' := {| partner := partner w; calls := (calls w ++ [req])%list |} in
    match partner w (calls w) req with
    | inr r => (Resolved r, w')
    | inl e => (Rejected e, w')
    end.

(** [axios.get(url, { headers, timeout })] *)
Definition axios_get (u : string) (hs : list (string * string)) (t : Z) :=
  axios {| method := GET; url := u; headers := hs; body := None;
           timeout := t |}.

(** [axios.post(url, payload, { headers, timeout })] *)
Definition axios_post (u : string) (p : Payload)
    (hs : list (string * string)) (t : Z) :=
  axios {| method := POST; url := u; headers := hs; body := Some p;
           timeout := t |}.

(** *** The service *)

Record t := {
  apiUrl : string;
  apiUser : string;
  apiPassword : string;
  enabled : bool;
  authHeader : string
}.

(** [configService.get<string>(key)] *)
Definition ConfigService := string -> option string.

Definition constructor (configService : ConfigService) : t :=
  let apiUrl := Js.orElse (configService "CPC_API_URL") "" in
  let apiUser := Js.orElse (configService "CPC_API_USER") "Vend" in
  let apiPassword := Js.orElse (configService "CPC_API_PASSWORD") "" in
  let enabled :=
    match configService "CPC_API_ENABLED" with
    | Some v => v =? "true"
    | None => false
    end in
  let credentials := apiUser ++ ":" ++ apiPassword in
  {| apiUrl := apiUrl; apiUser := apiUser; apiPassword := apiPassword;
     enabled := enabled;
     authHeader := "Basic " ++ Js.base64 (Js.utf8String credentials) |}.

Definition isEnabled (this : t) : bool :=
  enabled this && negb (apiUrl this =? "").

Definition formatPhoneForPartner (phone : string) : string :=
  let cleanPhone := Js.replaceNonDigits phone in
  if Js.startsWith cleanPhone "55" && (11 <? String.length cleanPhone)%nat
  then Js.substring 2 cleanPhone
  else cleanPhone.

Definition errorDataMensagem (d : ErrorData) : option string :=
  match d with
  | NoData => None
  | Data m => m
  end.

Definition handleApiError (error : AxiosError) (endpoint : string)
  : CpcApiResponse :=
  match response error with
  | Some r =>
      let errorData := data r in
      {| sucesso := false;
         mensagem := Js.orElse (errorDataMensagem errorData)
                       ("Erro na API: " ++ Js.numberToString (status r)) |}
  | None =>
      if request error then
        {| sucesso := false;
           mensagem := "API CPC indispon" ++ String Js.iacute "vel - timeout" |}
      else
        {| sucesso := false;
           mensagem := "Erro interno: " ++ message error |}
  end.

Definition disabled : CpcApiResponse :=
  {| sucesso := true; mensagem := "CPC API desabilitada" |}.

(** [phone?: string] is [None] when the argument is left out; [if (phone)]
    is false for it and for the empty string. *)
Definition validateContract (this : t) (contract segment : string)
    (phone : option string) : Async CpcApiResponse :=
  if negb (isEnabled this) then resolve disabled
  else
    tryCatch
      (let queryString :=
         "contrato=" ++ Js.encodeURIComponent contract
         ++ "&segmento=" ++ Js.encodeURIComponent segment in
       let queryString :=
         match phone with
         | Some phone =>
             if phone =? "" then queryString
             else
               let formattedPhone := formatPhoneForPartner phone in
               queryString ++ "&telefone="
               ++ Js.encodeURIComponent formattedPhone
         | None => queryString
         end in
       let fullUrl := apiUrl this ++ "/validate-contract?" ++ queryString in
       response <- axios_get fullUrl
                     [("Authorization", authHeader this)] 30000 ;;
       resolve (data response))
      (fun error => resolve (handleApiError error "validate-contract")).

Definition checkAcionamento (this : t) (contract phone segment : string)
  : Async CpcApiResponse :=
  if negb (isEnabled this) then resolve disabled
  else
    tryCatch
      (let formattedPhone := formatPhoneForPartner phone in
       let queryString :=
         "contrato=" ++ Js.encodeURIComponent contract
         ++ "&telefone=" ++ Js.encodeURIComponent formattedPhone
         ++ "&segmento=" ++ Js.encodeURIComponent segment in
       let fullUrl := apiUrl this ++ "/check-acionamento?" ++ queryString in
       response <- axios_get fullUrl
                     [("Authorization", authHeader this)] 30000 ;;
       resolve (data response))
      (fun error => resolve (handleApiError error "check-acionamento")).

Definition registerAcionamento (this : t) (contract phone segment : string)
  : Async CpcApiResponse :=
  if negb (isEnabled this) then resolve disabled
  else
    tryCatch
      (let fullUrl := apiUrl this ++ "/register-acionamento" in
       let formattedPhone := formatPhoneForPartner phone in
       let payload :=
         {| telefone := formattedPhone; contrato := contract;
            segmento := segment |} in
       response <- axios_post fullUrl payload
                     [("Authorization", authHeader this);
                      ("Content-Type", "application/json")] 30000 ;;
       resolve (data response))
      (fun error => resolve (handleApiError error "register-acionamento")).

Definition canContact (this : t) (contract phone segment : string)
  : Async CanContactResult :=
  if negb (isEnabled this) then
    resolve {| allowed := true; reason := "CPC API desabilitada" |}
  else
    contractValidation <- validateContract this contract segment (Some phone) ;;
    if negb (sucesso contractValidation) then
      resolve {| allowed := false; reason := mensagem contractValidation |}
    else
      acionamentoCheck <- checkAcionamento this contract phone segment ;;
      if negb (sucesso acionamentoCheck) then
        resolve {| allowed := false; reason := mensagem acionamentoCheck |}
      else
        resolve {| allowed := true; reason := "Cliente pode ser acionado" |}.

End CpcValidationService.

(** ** [ContactsService] (src/backend/src/contacts/contacts.service.ts) *)

Module ContactsService.

(** Modelled from the spec: the Prisma schema is not under src/.  A
    Contact row has the attributes of the data model; a timestamp is a
    number of milliseconds, [None] is SQL NULL. *)
Module Contact.
Record t := {
  id : Z;
  phone : string;
  name : option string;
  cpf : option string;
  segment : option Z;
  isCPC : bool;
  lastCPCAt : option Z;
  isNameManual : bool;
  createdAt : Z
}.
End Contact.

(** Modelled from the spec: a Conversation row, as far as this service
    touches it. *)
Module Conversation.
Record t := { contactPhone : string; contactName : string }.
End Conversation.

(** Modelled from the spec: dto/create-contact.dto.ts is not under src/.
    The phone is required, the other attributes are optional; [None] is
    a field left [undefined]. *)
Module CreateContactDto.
Record t := {
  phone : string;
  name : option string;
  cpf : option string;
  segment : option Z
}.
End CreateContactDto.

(** Modelled from the spec: dto/update-contact.dto.ts is not under src/.
    The service reads [name] and [isCPC] from it; [lastCPCAt] and
    [isNameManual] are not among its fields (the service adds them through
    a cast). *)
Module UpdateContactDto.
Record t := {
  name : option string;
  cpf : option string;
  segment : option Z;
  isCPC : option bool
}.
End UpdateContactDto.

(** The [data] argument of [prisma.contact.update] and
    [prisma.contact.create]: a field left [undefined] is [None] and is not
    written; [lastCPCAt] can be written as [null]. *)
Module ContactData.
Record t := {
  phone : option string;
  name : option string;
  cpf : option string;
  segment : option Z;
  isCPC : option bool;
  lastCPCAt : option (option Z);
  isNameManual : option bool
}.

Definition ofCreate (dto : CreateContactDto.t) : t :=
  {| phone := Some (CreateContactDto.phone dto);
     name := CreateContactDto.name dto;
     cpf := CreateContactDto.cpf dto;
     segment := CreateContactDto.segment dto;
     isCPC := None; lastCPCAt := None; isNameManual := None |}.

Definition ofUpdate (dto : UpdateContactDto.t) : t :=
  {| phone := None;
     name := UpdateContactDto.name dto;
     cpf := UpdateContactDto.cpf dto;
     segment := UpdateContactDto.segment dto;
     isCPC := UpdateContactDto.isCPC dto;
     lastCPCAt := None; isNameManual := None |}.

(** [(data as any).lastCPCAt = v] *)
Definition setLastCPCAt (v : option Z) (d : t) : t :=
  {| phone := phone d; name := name d; cpf := cpf d;
     segment := segment d; isCPC := isCPC d;
     lastCPCAt := Some v; isNameManual := isNameManual d |}.

(** [(data as any).isNameManual = v] *)
Definition setIsNameManual (v : bool) (d : t) : t :=
  {| phone := phone d; name := name d; cpf := cpf d;
     segment := segment d; isCPC := isCPC d;
     lastCPCAt := lastCPCAt d; isNameManual := Some v |}.

Definition orKeep {A} (new : option A) (old : A) : A :=
  match new with
  | Some v => v
  | None => old
  end.

Definition orKeepOpt {A} (new : option A) (old : option A) : option A :=
  match new with
  | Some v => Some v
  | None => old
  end.

(** The row after the write: every field that is set replaces the
    stored one. *)
Definition apply (d : t) (c : Contact.t) : Contact.t :=
  {| Contact.id := Contact.id c;
     Contact.phone := orKeep (phone d) (Contact.phone c);
     Contact.name := orKeepOpt (name d) (Contact.name c);
     Contact.cpf := orKeepOpt (cpf d) (Contact.cpf c);
     Contact.segment := orKeepOpt (segment d) (Contact.segment c);
     Contact.isCPC := orKeep (isCPC d) (Contact.isCPC c);
     Contact.lastCPCAt := orKeep (lastCPCAt d) (Contact.lastCPCAt c);
     Contact.isNameManual := orKeep (isNameManual d) (Contact.isNameManual c);
     Contact.createdAt := Contact.createdAt c |}.
End ContactData.

Inductive Exception :=
| NotFoundException (message : string)
| PrismaClientKnownRequestError (code : string).

(** The database and the clock. *)
Record World := {
  contacts : list Contact.t;
  conversations : list Conversation.t;
  nextId : Z;
  now : Z
}.

Definition Async := Promise World Exception.

(** [new Date()] *)
Definition newDate : Async Z := fun w => (Resolved (now w), w).

(** *** The persistence client

    Modelled from the spec: [PrismaService] is not under src/.  These are
    the calls of its persistence interface that the service makes.  No
    call below can break the unique index on [phone]: a row is created
    only after a lookup found none with the phone, and an existing row is
    written either with its own phone or with none. *)
Module Prisma.

Definition hasPhone (p : string) (c : Contact.t) : bool :=
  Contact.phone c =? p.

Definition hasId (i : Z) (c : Contact.t) : bool :=
  (Contact.id c =? i)%Z.

(** [prisma.contact.findUnique({ where: { phone } })] *)
Definition contact_findUnique_phone (p : string)
  : Async (option Contact.t) :=
  fun w => (Resolved (find (hasPhone p) (contacts w)), w).

(** [prisma.contact.findUnique({ where: { id } })] *)
Definition contact_findUnique_id (i : Z) : Async (option Contact.t) :=
  fun w => (Resolved (find (hasId i) (contacts w)), w).

(** [prisma.contact.findFirst({ where: { phone } })] *)
Definition contact_findFirst_phone (p : string)
  : Async (option Contact.t) :=
  fun w => (Resolved (find (hasPhone p) (contacts w)), w).

Fixpoint writeRow (i : Z) (d : ContactData.t) (l : list Contact.t)
  : list Contact.t :=
  match l with
  | [] => []
  | c :: l' =>
      if hasId i c then ContactData.apply d c :: l'
      else c :: writeRow i d l'
  end.

(** [prisma.contact.update({ where: { id }, data })]: the updated row,
    or error P2025 when there is no row with this id. *)
Definition contact_update (i : Z) (d : ContactData.t) : Async Contact.t :=
  fun w =>
    match find (hasId i) (contacts w) with
    | Some c =>
        (Resolved (ContactData.apply d c),
         {| contacts := writeRow i d (contacts w);
            conversations := conversations w;
            nextId := nextId w; now := now w |})
    | None => (Rejected (PrismaClientKnownRequestError "P2025"), w)
    end.

(** The row [prisma.contact.create] inserts: a generated id, the flags
    off, no CPC timestamp, created now. *)
Definition freshRow (w : World) : Contact.t :=
  {| Contact.id := nextId w; Contact.phone := "";
     Contact.name := None; Contact.cpf := None; Contact.segment := None;
     Contact.isCPC := false; Contact.lastCPCAt := None;
     Contact.isNameManual := false; Contact.createdAt := now w |}.

(** [prisma.contact.create({ data })] *)
Definition contact_create (d : ContactData.t) : Async Contact.t :=
  fun w =>
    let c := ContactData.apply d (freshRow w) in
    (Resolved c,
     {| contacts := (contacts w ++ [c])%list;
        conversations := conversations w;
        nextId := (nextId w + 1)%Z; now := now w |}).

(** [prisma.contact.delete({ where: { id } })] *)
Definition contact_delete (i : Z) : Async Contact.t :=
  fun w =>
    match find (hasId i) (contacts w) with
    | Some c =>
        (Resolved c,
         {| contacts := filter (fun c' => negb (hasId i c')) (contacts w);
            conversations := conversations w;
            nextId := nextId w; now := now w |})
    | None => (Rejected (PrismaClientKnownRequestError "P2025"), w)
    end.

Definition setContactName (n : string) (cv : Conversation.t)
  : Conversation.t :=
  {| Conversation.contactPhone := Conversation.contactPhone cv;
     Conversation.contactName := n |}.

(** [prisma.conversation.updateMany({ where, data: { contactName } })]:
    the number of rows it wrote. *)
Definition conversation_updateMany (where_ : Conversation.t -> bool)
    (contactName : string) : Async Z :=
  fun w =>
    (Resolved (Z.of_nat (List.length (filter where_ (conversations w)))),
     {| contacts := contacts w;
        conversations :=
          map (fun cv => if where_ cv then setContactName contactName cv
                         else cv)
              (conversations w);
        nextId := nextId w; now := now w |}).

Fixpoint insertByCreatedAtDesc (c : Contact.t) (l : list Contact.t)
  : list Contact.t :=
  match l with
  | [] => [c]
  | x :: l' =>
      if (Contact.createdAt x <=? Contact.createdAt c)%Z then c :: l
      else x :: insertByCreatedAtDesc c l'
  end.

(** [orderBy: { createdAt: 'desc' }] *)
Definition orderByCreatedAtDesc (l : list Contact.t) : list Contact.t :=
  fold_right insertByCreatedAtDesc [] l.

(** [prisma.contact.findMany({ where, orderBy: { createdAt: 'desc' } })] *)
Definition contact_findMany (where_ : Contact.t -> bool)
  : Async (list Contact.t) :=
  fun w => (Resolved (orderByCreatedAtDesc (filter where_ (contacts w))), w).

Definition toLower (c : ascii) : ascii :=
  if ((65 <=? Js.code c) && (Js.code c <=? 90))%N
  then ascii_of_N (Js.code c + 32)
  else c.

Fixpoint lower (s : string) : string :=
  match s with
  | EmptyString => EmptyString
  | String c s' => String (toLower c) (lower s')
  end.

(** [{ contains: v }] on a nullable column: NULL matches nothing. *)
Definition contains (column : option string) (v : string) : bool :=
  match column with
  | Some s => Js.contains s v
  | None => false
  end.

(** [{ contains: v, mode: 'insensitive' }]: letters A-Z and a-z match
    each other. *)
Definition containsInsensitive (column : option string) (v : string)
  : bool :=
  match column with
  | Some s => Js.contains (lower s) (lower v)
  | None => false
  end.

(** [{ segment }] on the nullable column. *)
Definition equalsNumber (column : option Z) (v : Z) : bool :=
  match column with
  | Some n => (n =? v)%Z
  | None => false
  end.

End Prisma.

(** *** The service *)

(** [dto.name && dto.name.trim() !== ''] *)
Definition nameIsPresent (name : option string) : bool :=
  Js.truthy name
  && match name with
     | Some n => negb (Js.trim n =? "")
     | None => false
     end.

(** [dto.name !== undefined && dto.name !== contact.name] *)
Definition nameChanged (name : option string) (contact : Contact.t) : bool :=
  match name, Contact.name contact with
  | Some n, Some old => negb (n =? old)
  | Some _, None => true
  | None, _ => false
  end.

(** The [data: { contactName: dto.name }] of a branch that has checked
    that the name is there. *)
Definition the (name : option string) : string :=
  match name with
  | Some n => n
  | None => ""
  end.

Definition isPlaceholderFor (p : string) (cv : Conversation.t) : bool :=
  (Conversation.contactPhone cv =? p)
  && (Conversation.contactName cv =? "Desconhecido").

Definition isFor (p : string) (cv : Conversation.t) : bool :=
  Conversation.contactPhone cv =? p.

Definition create (createContactDto : CreateContactDto.t) : Async Contact.t :=
  existingContact <-
    Prisma.contact_findUnique_phone (CreateContactDto.phone createContactDto) ;;
  match existingContact with
  | Some existingContact =>
      updated <- Prisma.contact_update (Contact.id existingContact)
                   (ContactData.ofCreate createContactDto) ;;
      _ <- (if nameIsPresent (CreateContactDto.name createContactDto) then
              Prisma.conversation_updateMany
                (isPlaceholderFor (Contact.phone existingContact))
                (the (CreateContactDto.name createContactDto))
            else resolve 0%Z) ;;
      resolve updated
  | None =>
      contact <- Prisma.contact_create (ContactData.ofCreate createContactDto) ;;
      _ <- (if nameIsPresent (CreateContactDto.name createContactDto) then
              Prisma.conversation_updateMany
                (isPlaceholderFor (Contact.phone contact))
                (the (CreateContactDto.name createContactDto))
            else resolve 0%Z) ;;
      resolve contact
  end.

Definition findAll (search : option string) (segment : option Z)
  : Async (list Contact.t) :=
  Prisma.contact_findMany
    (fun c =>
       (if Js.truthy search then
          Prisma.containsInsensitive (Contact.name c) (the search)
          || Prisma.contains (Some (Contact.phone c)) (the search)
          || Prisma.contains (Contact.cpf c) (the search)
        else true)
       && (if Js.truthyNumber segment then
             match segment with
             | Some n => Prisma.equalsNumber (Contact.segment c) n
             | None => true
             end
           else true)).

Definition findOne (id : Z) : Async Contact.t :=
  contact <- Prisma.contact_findUnique_id id ;;
  match contact with
  | None =>
      throw (NotFoundException
               ("Contato com ID " ++ Js.numberToString id ++ " n"
                ++ String Js.atilde "o encontrado"))
  | Some contact => resolve contact
  end.

Definition findByPhone (phone : string) : Async (option Contact.t) :=
  Prisma.contact_findFirst_phone phone.

Definition update (id : Z) (updateContactDto : UpdateContactDto.t)
  : Async Contact.t :=
  contact <- findOne id ;;
  updatedContact <-
    Prisma.contact_update id (ContactData.ofUpdate updateContactDto) ;;
  _ <- (if nameChanged (UpdateContactDto.name updateContactDto) contact then
          Prisma.conversation_updateMany (isFor (Contact.phone contact))
            (the (UpdateContactDto.name updateContactDto))
        else resolve 0%Z) ;;
  resolve updatedContact.

Definition updateByPhone (phone : string)
    (updateContactDto : UpdateContactDto.t) : Async Contact.t :=
  contact <- findByPhone phone ;;
  match contact with
  | None =>
      throw (NotFoundException
               ("Contato com telefone " ++ phone ++ " n"
                ++ String Js.atilde "o encontrado"))
  | Some contact =>
      let data := ContactData.ofUpdate updateContactDto in
      data <-
        match UpdateContactDto.isCPC updateContactDto with
        | Some true =>
            d <- newDate ;; resolve (ContactData.setLastCPCAt (Some d) data)
        | Some false => resolve (ContactData.setLastCPCAt None data)
        | None => resolve data
        end ;;
      let data :=
        if nameChanged (UpdateContactDto.name updateContactDto) contact
        then ContactData.setIsNameManual true data
        else data in
      updatedContact <- Prisma.contact_update (Contact.id contact) data ;;
      _ <- (if nameChanged (UpdateContactDto.name updateContactDto) contact
            then
              Prisma.conversation_updateMany (isFor phone)
                (the (UpdateContactDto.name updateContactDto))
            else resolve 0%Z) ;;
      resolve updatedContact
  end.

Definition remove (id : Z) : Async Contact.t :=
  _ <- findOne id ;;
  Prisma.contact_delete id.

End ContactsService.

(** * The words of the specification *)

(** ** The contactability gate *)

Module CpcSpec.

Import CpcValidationService.

(** The digits of the phone start with "5555" and are more than 13: the
    phones on which normalizing twice removes two prefixes. *)
Definition doublePrefix (p : string) : bool :=
  Js.startsWith (Js.replaceNonDigits p) "5555"
  && (13 <? String.length (Js.replaceNonDigits p))%nat.

(** The three causes of a failed partner call. *)
Inductive Cause :=
| PartnerRejected (status : Z) (mensagem : option string)
| PartnerUnavailable
| PartnerConfigError (detail : string).

Definition cause (e : AxiosError) : Cause :=
  match response e with
  | Some r => PartnerRejected (status r) (errorDataMensagem (data r))
  | None => if request e then PartnerUnavailable
            else PartnerConfigError (message e)
  end.

(** The message of each cause: the partner's own message when it sent one
    that is not empty, else the status; a fixed text; the detail. *)
Definition failureMessage (c : Cause) : string :=
  match c with
  | PartnerRejected st (Some (String a m)) => String a m
  | PartnerRejected st _ => "Erro na API: " ++ Js.numberToString st
  | PartnerUnavailable =>
      "API CPC indispon" ++ String Js.iacute "vel - timeout"
  | PartnerConfigError detail => "Erro interno: " ++ detail
  end.

(** What a raw call returns for the partner's answer. *)
Definition normalized (answer : AxiosError + AxiosResponse CpcApiResponse)
  : CpcApiResponse :=
  match answer with
  | inr r => data r
  | inl e => {| sucesso := false; mensagem := failureMessage (cause e) |}
  end.

Definition get (this : t) (u : string) : Request :=
  {| method := GET; url := u;
     headers := [("Authorization", authHeader this)];
     body := None; timeout := 30000 |}.

(** GET .../validate-contract with contrato, segmento and, for a phone that
    is given and not empty, telefone. *)
Definition validateRequest (this : t) (contract segment : string)
    (phone : option string) : Request :=
  get this
    (apiUrl this ++ "/validate-contract?contrato="
     ++ Js.encodeURIComponent contract
     ++ "&segmento=" ++ Js.encodeURIComponent segment
     ++ match phone with
        | None | Some "" => ""
        | Some phone =>
            "&telefone=" ++ Js.encodeURIComponent (formatPhoneForPartner phone)
        end).

(** GET .../check-acionamento with contrato, telefone and segmento. *)
Definition checkRequest (this : t) (contract phone segment : string)
  : Request :=
  get this
    (apiUrl this ++ "/check-acionamento?contrato="
     ++ Js.encodeURIComponent contract
     ++ "&telefone=" ++ Js.encodeURIComponent (formatPhoneForPartner phone)
     ++ "&segmento=" ++ Js.encodeURIComponent segment).

(** POST .../register-acionamento with the JSON body. *)
Definition registerRequest (this : t) (contract phone segment : string)
  : Request :=
  {| method := POST; url := apiUrl this ++ "/register-acionamento";
     headers := [("Authorization", authHeader this);
                 ("Content-Type", "application/json")];
     body := Some {| telefone := formatPhoneForPartner phone;
                     contrato := contract; segmento := segment |};
     timeout := 30000 |}.

(** The world after one more call. *)
Definition called (w : World) (reqs : list Request) : World :=
  {| partner := partner w; calls := (calls w ++ reqs)%list |}.

(** [q.split(sep)] *)
Fixpoint split (sep : ascii) (q : string) : list string :=
  match q with
  | EmptyString => [EmptyString]
  | String c q' =>
      if (c =? sep)%char then EmptyString :: split sep q'
      else match split sep q' with
           | [] => [String c EmptyString]
           | first :: others => String c first :: others
           end
  end.

(** The names of the parameters of a query string [k1=v1&k2=v2...]. *)
Definition paramNames (q : string) : list string :=
  map (fun kv => hd EmptyString (split "=" kv)) (split "&" q).

(** The query string of validate-contract without a phone. *)
Definition validateQuery (contract segment : string) : string :=
  "contrato=" ++ Js.encodeURIComponent contract
  ++ "&segmento=" ++ Js.encodeURIComponent segment.

(** A service that is enabled and a partner that accepts everything. *)
Definition demo : t :=
  constructor (fun key =>
    if key =? "CPC_API_URL" then Some "https://partner.example/api"
    else if key =? "CPC_API_ENABLED" then Some "true"
    else None).

(** An error response whose body has an empty mensagem. *)
Definition emptyMensagemError : AxiosError :=
  {| response := Some {| status := 500; data := Data (Some "") |};
     request := true;
     message := "Request failed with status code 500" |}.

Definition accepting : World :=
  {| partner := fun _ _ =>
       inr {| status := 200;
              data := {| sucesso := true; mensagem := "OK" |} |};
     calls := [] |}.

(** The query string of check-acionamento, the phone written as the digits
    it is normalized to. *)
Definition checkQuery (contract phone segment : string) : string :=
  "contrato=" ++ Js.encodeURIComponent contract
  ++ "&telefone=" ++ formatPhoneForPartner phone
  ++ "&segmento=" ++ Js.encodeURIComponent segment.

(** The query string of validate-contract with a phone. *)
Definition validateQueryWith (contract segment phone : string) : string :=
  "contrato=" ++ Js.encodeURIComponent contract
  ++ "&segmento=" ++ Js.encodeURIComponent segment
  ++ "&telefone=" ++ formatPhoneForPartner phone.

(** A partner that cannot be reached. *)
Definition unreachable : World :=
  {| partner := fun _ _ =>
       inl {| response := None; request := true;
              message := "timeout of 30000ms exceeded" |};
     calls := [] |}.

End CpcSpec.

(** ** The contact directory *)

Module ContactsSpec.

Import ContactsService.

(** The segment filter in effect: a segment of 0 counts as none. *)
Definition givenSegment (segment : option Z) : option Z :=
  match segment with
  | Some 0%Z => None
  | _ => segment
  end.

(** A contact matches a filter: the search text, when there is one, occurs
    in the name whatever the case of the letters, or in the phone, or in the
    cpf; the segment, when there is one, is the contact's segment. *)
Definition matches (search : option string) (segment : option Z)
    (c : Contact.t) : bool :=
  match search with
  | None => true
  | Some text =>
      Prisma.containsInsensitive (Contact.name c) text
      || Js.contains (Contact.phone c) text
      || Prisma.contains (Contact.cpf c) text
  end
  && match segment with
     | None => true
     | Some n => Prisma.equalsNumber (Contact.segment c) n
     end.

(** The primary key: ids are distinct, and below the next id the
    database will generate. *)
Definition consistent (w : World) : Prop :=
  NoDup (map Contact.id (contacts w))
  /\ Forall (fun c => (Contact.id c < nextId w)%Z) (contacts w).

(** Ordered by creation time, newest first. *)
Definition newestFirst (l : list Contact.t) : Prop :=
  StronglySorted
    (fun a b => (Contact.createdAt b <= Contact.createdAt a)%Z) l.

(** The rewrite of the create path: the name of a conversation of phone [p]
    that holds the placeholder becomes [n]. *)
Definition rewritePlaceholder (placeholder p n : string)
    (cv : Conversation.t) : Conversation.t :=
  if (Conversation.contactPhone cv =? p)
     && (Conversation.contactName cv =? placeholder)
  then {| Conversation.contactPhone := Conversation.contactPhone cv;
          Conversation.contactName := n |}
  else cv.

(** The rewrite of the update paths: the name of every conversation of
    phone [p] becomes [n]. *)
Definition rewriteAll (p n : string) (cv : Conversation.t) : Conversation.t :=
  if Conversation.contactPhone cv =? p
  then {| Conversation.contactPhone := Conversation.contactPhone cv;
          Conversation.contactName := n |}
  else cv.

(** A small database. *)
Definition ana : Contact.t :=
  {| Contact.id := 1; Contact.phone := "5511999999999";
     Contact.name := Some "Ana Lima"; Contact.cpf := None;
     Contact.segment := Some 5%Z; Contact.isCPC := false;
     Contact.lastCPCAt := None; Contact.isNameManual := true;
     Contact.createdAt := 1000 |}.

Definition bruno : Contact.t :=
  {| Contact.id := 2; Contact.phone := "5521988887777";
     Contact.name := Some "Bruno"; Contact.cpf := Some "12345678901";
     Contact.segment := Some 7%Z; Contact.isCPC := true;
     Contact.lastCPCAt := Some 1500%Z; Contact.isNameManual := false;
     Contact.createdAt := 2000 |}.

Definition conversation (p n : string) : Conversation.t :=
  {| Conversation.contactPhone := p; Conversation.contactName := n |}.

Definition office : World :=
  {| contacts := [ana; bruno];
     conversations :=
       [conversation "5511999999999" "Desconhecido";
        conversation "5511999999999" "Unknown";
        conversation "5511999999999" "Aninha";
        conversation "5521988887777" "Desconhecido"];
     nextId := 3; now := 5000 |}.

(** A conversation that waits for its contact under the name "Unknown". *)
Definition inbox : World :=
  {| contacts := [];
     conversations := [conversation "5511999999999" "Unknown"];
     nextId := 1; now := 5000 |}.

Definition markCPC : UpdateContactDto.t :=
  {| UpdateContactDto.name := None; UpdateContactDto.cpf := None;
     UpdateContactDto.segment := None; UpdateContactDto.isCPC := Some true |}.

Definition rename (n : string) : UpdateContactDto.t :=
  {| UpdateContactDto.name := Some n; UpdateContactDto.cpf := None;
     UpdateContactDto.segment := None; UpdateContactDto.isCPC := None |}.

Definition named (p n : string) : CreateContactDto.t :=
  {| CreateContactDto.phone := p; CreateContactDto.name := Some n;
     CreateContactDto.cpf := None; CreateContactDto.segment := None |}.

(** The keys of the Contact table: the primary key, and at most one row
    for a phone. *)
Definition keyed (w : World) : Prop :=
  consistent w /\ NoDup (map Contact.phone (contacts w)).

(** The message of the NotFoundException for an id. *)
Definition idNotFound (id : Z) : string :=
  "Contato com ID " ++ Js.numberToString id ++ " n"
  ++ String Js.atilde "o encontrado".

(** The message of the NotFoundException for a phone. *)
Definition phoneNotFound (phone : string) : string :=
  "Contato com telefone " ++ phone ++ " n"
  ++ String Js.atilde "o encontrado".

(** The conversations are these, phone by phone. *)
Definition listed (phones : list string) (w : World) : Prop :=
  map Conversation.contactPhone (conversations w) = phones.

(** An input that carries a phone and nothing else. *)
Definition anonymous (p : string) : CreateContactDto.t :=
  {| CreateContactDto.phone := p; CreateContactDto.name := None;
     CreateContactDto.cpf := None; CreateContactDto.segment := None |}.

(** A patch of the segment alone. *)
Definition resegment (n : Z) : UpdateContactDto.t :=
  {| UpdateContactDto.name := None; UpdateContactDto.cpf := None;
     UpdateContactDto.segment := Some n; UpdateContactDto.isCPC := None |}.

End ContactsSpec.

(** * Properties *)

(** ** Strings *)

Module JsFacts.

Lemma length_filter_le (f : ascii -> bool) (s : string) :
  (String.length (Js.filter f s) <= String.length s)%nat.
Proof.
  induction s as [|c s IH]; simpl; [lia|].
  destruct (f c); simpl; lia.
Qed.

(** A string that [filter] does not change has only characters that pass. *)
Lemma filter_fixed_cons (f : ascii -> bool) (c : ascii) (s : string) :
  Js.filter f (String c s) = String c s ->
  f c = true /\ Js.filter f s = s.
Proof.
  simpl. destruct (f c) eqn:Hc.
  - intros H. injection H as H. split; [reflexivity | exact H].
  - intros H. pose proof (length_filter_le f s) as Hle.
    rewrite H in Hle. simpl in Hle. lia.
Qed.

Lemma filter_idempotent (f : ascii -> bool) (s : string) :
  Js.filter f (Js.filter f s) = Js.filter f s.
Proof.
  induction s as [|c s IH]; simpl; [reflexivity|].
  destruct (f c) eqn:Hc; simpl; [rewrite Hc, IH|]; auto.
Qed.

Lemma filter_substring (f : ascii -> bool) (n : nat) :
  forall s, Js.filter f s = s ->
            Js.filter f (Js.substring n s) = Js.substring n s.
Proof.
  induction n as [|n IH]; intros s Hs; [exact Hs|].
  destruct s as [|c s]; [reflexivity|].
  apply filter_fixed_cons in Hs. simpl. apply IH. apply Hs.
Qed.

Lemma startsWith_cons (s : string) (a : ascii) (p : string) :
  Js.startsWith s (String a p) = true ->
  exists rest, s = String a rest /\ Js.startsWith rest p = true.
Proof.
  destruct s as [|b rest]; cbn [Js.startsWith]; [discriminate|].
  intros H. apply andb_prop in H as [Hab H].
  apply Ascii.eqb_eq in Hab as <-. now exists rest.
Qed.

Lemma startsWith_55 (s : string) :
  Js.startsWith s "55" = true ->
  exists rest, s = String "5" (String "5" rest).
Proof.
  intros H. apply startsWith_cons in H as [r1 [-> H]].
  apply startsWith_cons in H as [r2 [-> _]]. now exists r2.
Qed.

Lemma startsWith_cons_same (a : ascii) (s p : string) :
  Js.startsWith (String a s) (String a p) = Js.startsWith s p.
Proof. cbn [Js.startsWith]. now rewrite Ascii.eqb_refl. Qed.

Lemma contains_empty (s : string) : Js.contains s "" = true.
Proof. destruct s; reflexivity. Qed.

Lemma append_assoc (a b c : string) : (a ++ b) ++ c = a ++ b ++ c.
Proof. induction a as [|x a IH]; simpl; [|rewrite IH]; reflexivity. Qed.

Lemma append_empty_r (a : string) : a ++ "" = a.
Proof. induction a as [|x a IH]; simpl; [|rewrite IH]; reflexivity. Qed.

Lemma chars_append (a b : string) :
  list_ascii_of_string (a ++ b)
  = (list_ascii_of_string a ++ list_ascii_of_string b)%list.
Proof. induction a as [|x a IH]; simpl; [|rewrite IH]; reflexivity. Qed.

(** No piece of an encoded component is an ampersand. *)
Lemma encodeURIComponent_no_ampersand (s : string) :
  ~ In "&"%char (list_ascii_of_string (Js.encodeURIComponent s)).
Proof.
  induction s as [|c s IH]; simpl; [tauto|].
  rewrite chars_append, in_app_iff. intros [H|H]; [|exact (IH H)].
  revert H.
  assert (E : existsb (Ascii.eqb "&")
                (list_ascii_of_string
                   (if Js.isUnreserved c then String c ""
                    else String.concat "" (map Js.percent (Js.utf8 c))))
                = false).
  { destruct c as [[] [] [] [] [] [] [] []]; vm_compute; reflexivity. }
  intros H. apply Bool.not_true_iff_false in E. apply E.
  apply existsb_exists. exists "&"%char. split; [exact H | reflexivity].
Qed.

End JsFacts.

(** ** Invariants of asynchronous code *)

Section Preserves.

Context {W E : Type} (P : W -> Prop).

Lemma preserves_resolve {A} (a : A) : preserves P (@resolve W E A a).
Proof. intros w H. exact H. Qed.

Lemma preserves_throw {A} (e : E) : preserves P (@throw W E A e).
Proof. intros w H. exact H. Qed.

Lemma preserves_await {A B} (c : Promise W E A) (k : A -> Promise W E B) :
  preserves P c -> (forall a, preserves P (k a)) -> preserves P (await c k).
Proof.
  intros Hc Hk w H. unfold await. specialize (Hc w H).
  destruct (c w) as [[a|e] w']; cbn [snd] in *; [now apply Hk | exact Hc].
Qed.

End Preserves.

(** ** The contactability gate *)

Module CpcFacts.

Import CpcValidationService CpcSpec.

(** *** Phone normalization *)

Example formatPhoneForPartner_spec_1 :
  formatPhoneForPartner "+55 11 91234-5678" = "11912345678".
Proof. reflexivity. Qed.

Example formatPhoneForPartner_spec_2 :
  formatPhoneForPartner "11912345678" = "11912345678".
Proof. reflexivity. Qed.

(** C5, as stated, fails: a phone of fifteen digits that starts with
    "5555" loses one "55" at the first normalization and another one at
    the second. *)
Lemma formatPhoneForPartner_not_idempotent :
  formatPhoneForPartner (formatPhoneForPartner "555511912345678")
  <> formatPhoneForPartner "555511912345678".
Proof. vm_compute. discriminate. Qed.

(** C5 (amended): normalization is idempotent on every phone string
    except those whose digits start with "5555" and number more than 13. *)
Theorem formatPhoneForPartner_idempotent (p : string) :
  doublePrefix p = false ->
  formatPhoneForPartner (formatPhoneForPartner p) = formatPhoneForPartner p.
Proof.
  unfold doublePrefix, formatPhoneForPartner, Js.replaceNonDigits.
  intros Hd.
  pose proof (JsFacts.filter_idempotent Js.isDigit p) as Hfix.
  destruct (Js.startsWith (Js.filter Js.isDigit p) "55") eqn:H55;
    cbn [andb].
  - destruct (JsFacts.startsWith_55 _ H55) as [rest Hrest].
    rewrite Hrest in *.
    rewrite !JsFacts.startsWith_cons_same in Hd.
    pose proof (JsFacts.filter_substring Js.isDigit 2 _ Hfix) as Hsub.
    cbn [Js.substring String.length] in *.
    destruct (11 <? S (S (String.length rest)))%nat eqn:Hlen.
    + rewrite Hsub.
      replace (11 <? String.length rest)%nat
        with (13 <? S (S (String.length rest)))%nat by reflexivity.
      now rewrite Hd.
    + rewrite Hfix, JsFacts.startsWith_cons_same, JsFacts.startsWith_cons_same.
      cbn [Js.startsWith String.length andb]. rewrite Hlen. reflexivity.
  - now rewrite Hfix, H55.
Qed.

Lemma formatPhoneForPartner_idempotent_witness :
  doublePrefix "+55 (55) 99123-4567" = false
  /\ formatPhoneForPartner (formatPhoneForPartner "+55 (55) 99123-4567")
     = formatPhoneForPartner "+55 (55) 99123-4567".
Proof.
  split; [reflexivity|].
  apply (formatPhoneForPartner_idempotent "+55 (55) 99123-4567").
  reflexivity.
Defined.

(** The exception of the amended C5 is exact: on every phone it leaves
    out, the second normalization changes the result of the first. *)
Lemma formatPhoneForPartner_double_prefix (p : string) :
  doublePrefix p = true ->
  formatPhoneForPartner (formatPhoneForPartner p) <> formatPhoneForPartner p.
Proof.
  unfold doublePrefix, formatPhoneForPartner, Js.replaceNonDigits.
  intros Hd. apply andb_prop in Hd as [H5555 Hlen].
  pose proof (JsFacts.filter_idempotent Js.isDigit p) as Hfix.
  apply JsFacts.startsWith_cons in H5555 as [r1 [Hp H]].
  apply JsFacts.startsWith_cons in H as [rest [-> H55]].
  rewrite Hp in *.
  pose proof (JsFacts.filter_substring Js.isDigit 2 _ Hfix) as Hsub.
  rewrite !JsFacts.startsWith_cons_same.
  cbn [Js.substring String.length Js.startsWith andb] in *.
  apply Nat.ltb_lt in Hlen.
  assert (H11 : (11 <? String.length rest)%nat = true)
    by (apply Nat.ltb_lt; lia).
  assert (H11' : (11 <? S (S (String.length rest)))%nat = true)
    by (apply Nat.ltb_lt; lia).
  rewrite H11', Hsub, H55, H11. cbn [andb].
  destruct (JsFacts.startsWith_55 _ H55) as [r ->].
  cbn [Js.substring].
  intros Heq. apply (f_equal String.length) in Heq. simpl in Heq. lia.
Qed.

(** *** Query strings *)

Lemma split_without (sep : ascii) (a : string) :
  ~ In sep (list_ascii_of_string a) -> split sep a = [a].
Proof.
  induction a as [|c a IH]; simpl; [reflexivity|].
  intros H. destruct (Ascii.eqb_spec c sep) as [->|_]; [tauto|].
  rewrite IH by tauto. reflexivity.
Qed.

Lemma split_at_first (sep : ascii) (a b : string) :
  ~ In sep (list_ascii_of_string a) ->
  split sep (a ++ String sep b) = a :: split sep b.
Proof.
  induction a as [|c a IH]; simpl.
  - now rewrite Ascii.eqb_refl.
  - intros H. destruct (Ascii.eqb_spec c sep) as [->|_]; [tauto|].
    rewrite IH by tauto. reflexivity.
Qed.

Lemma paramNames_validateQuery (contract segment : string) :
  paramNames (validateQuery contract segment) = ["contrato"; "segmento"].
Proof.
  unfold paramNames, validateQuery.
  replace ("contrato=" ++ Js.encodeURIComponent contract
           ++ "&segmento=" ++ Js.encodeURIComponent segment)
    with (("contrato=" ++ Js.encodeURIComponent contract)
          ++ String "&" ("segmento=" ++ Js.encodeURIComponent segment))
    by (rewrite JsFacts.append_assoc; reflexivity).
  rewrite split_at_first, split_without.
  - cbn [map].
    change ("contrato=" ++ Js.encodeURIComponent contract)
      with ("contrato" ++ String "=" (Js.encodeURIComponent contract)).
    change ("segmento=" ++ Js.encodeURIComponent segment)
      with ("segmento" ++ String "=" (Js.encodeURIComponent segment)).
    rewrite !split_at_first; [reflexivity| |];
      vm_compute; intuition discriminate.
  - rewrite JsFacts.chars_append, in_app_iff.
    intros [H|H]; [vm_compute in H; intuition discriminate|].
    exact (JsFacts.encodeURIComponent_no_ampersand _ H).
  - rewrite JsFacts.chars_append, in_app_iff.
    intros [H|H]; [vm_compute in H; intuition discriminate|].
    exact (JsFacts.encodeURIComponent_no_ampersand _ H).
Qed.

(** C9: with the empty string as phone, validateContract behaves as it does
    without a phone: the one request it makes (when the gate is enabled)
    carries the query string of contrato and segmento, which has no
    telefone parameter. *)
Theorem validateContract_empty_phone
    (this : t) (contract segment : string) (w : World) :
  validateContract this contract segment (Some "") w
  = validateContract this contract segment None w
  /\ calls (snd (validateContract this contract segment (Some "") w))
     = (if isEnabled this then
          calls w ++ [get this (apiUrl this ++ "/validate-contract?"
                                ++ validateQuery contract segment)]
        else calls w)%list
  /\ paramNames (validateQuery contract segment) = ["contrato"; "segmento"]
  /\ ~ In "telefone" (paramNames (validateQuery contract segment)).
Proof.
  split; [reflexivity|]. split.
  - unfold validateContract. destruct (isEnabled this); [|reflexivity].
    cbn [negb]. unfold tryCatch, await, axios_get, axios, resolve.
    cbn [String.eqb].
    match goal with
    | |- context [partner w (calls w) ?r] =>
        destruct (partner w (calls w) r)
    end; reflexivity.
  - rewrite paramNames_validateQuery. split; [reflexivity|].
    cbn [In]. intuition discriminate.
Qed.

(** *** The raw calls *)

Lemma handleApiError_normalized (e : AxiosError) (endpoint : string) :
  handleApiError e endpoint = normalized (inl e).
Proof.
  unfold handleApiError, normalized, cause.
  destruct (response e) as [[st d]|]; cbn [status data].
  - destruct d as [|[[|a m]|]]; reflexivity.
  - destruct (request e); reflexivity.
Qed.

Lemma called_called (w : World) (a b : list Request) :
  called (called w a) b = called w (a ++ b).
Proof. unfold called. cbn [partner calls]. now rewrite <- app_assoc. Qed.

Ltac run_call :=
  unfold tryCatch, await, axios_get, axios_post, axios, resolve;
  cbn [append];
  match goal with
  | |- context [partner ?w (calls ?w) ?r] =>
      destruct (partner w (calls w) r) as [e|r']; cbv beta iota;
      rewrite ?handleApiError_normalized; reflexivity
  end.

Lemma validateContract_enabled
    (this : t) (contract segment : string) (phone : option string)
    (w : World) :
  isEnabled this = true ->
  validateContract this contract segment phone w
  = (Resolved
       (normalized
          (partner w (calls w) (validateRequest this contract segment phone))),
     called w [validateRequest this contract segment phone]).
Proof.
  intros Hen. unfold validateContract, validateRequest, get.
  rewrite Hen. cbn [negb].
  destruct phone as [[|a phone]|]; cbn [String.eqb];
    rewrite ?JsFacts.append_empty_r; cbn [append];
    rewrite ?JsFacts.append_assoc; cbn [append];
    rewrite ?JsFacts.append_assoc; run_call.
Qed.

Lemma checkAcionamento_enabled
    (this : t) (contract phone segment : string) (w : World) :
  isEnabled this = true ->
  checkAcionamento this contract phone segment w
  = (Resolved
       (normalized
          (partner w (calls w) (checkRequest this contract phone segment))),
     called w [checkRequest this contract phone segment]).
Proof.
  intros Hen. unfold checkAcionamento, checkRequest, get.
  rewrite Hen. cbn [negb]. run_call.
Qed.

Lemma registerAcionamento_enabled
    (this : t) (contract phone segment : string) (w : World) :
  isEnabled this = true ->
  registerAcionamento this contract phone segment w
  = (Resolved
       (normalized
          (partner w (calls w) (registerRequest this contract phone segment))),
     called w [registerRequest this contract phone segment]).
Proof.
  intros Hen. unfold registerAcionamento, registerRequest.
  rewrite Hen. cbn [negb]. run_call.
Qed.

(** *** The composite decision *)

Lemma canContact_enabled
    (this : t) (contract phone segment : string) (w : World) :
  isEnabled this = true ->
  let v := validateRequest this contract segment (Some phone) in
  let c := checkRequest this contract phone segment in
  let r1 := normalized (partner w (calls w) v) in
  let r2 := normalized (partner w (calls w ++ [v]) c) in
  canContact this contract phone segment w
  = (if negb (sucesso r1) then
       (Resolved {| allowed := false; reason := mensagem r1 |},
        called w [v])
     else if negb (sucesso r2) then
       (Resolved {| allowed := false; reason := mensagem r2 |},
        called w [v; c])
     else
       (Resolved {| allowed := true; reason := "Cliente pode ser acionado" |},
        called w [v; c])).
Proof.
  intros Hen v c r1 r2.
  unfold canContact. rewrite Hen. cbn [negb].
  unfold await at 1. rewrite (validateContract_enabled _ _ _ _ _ Hen).
  fold v r1. destruct (negb (sucesso r1)); [reflexivity|].
  unfold await. rewrite (checkAcionamento_enabled _ _ _ _ _ Hen).
  rewrite called_called. cbn [called calls partner app]. fold c r2.
  destruct (negb (sucesso r2)); reflexivity.
Qed.

(** C1: with the gate enabled, canContact first makes the validate-contract
    call; when its result has sucesso=false it answers not allowed with that
    mensagem and makes no other call; otherwise it makes the
    check-acionamento call and answers not allowed with its mensagem when
    that has sucesso=false, else allowed with the fixed reason.  The calls
    it makes are GET requests: register-acionamento is a POST. *)
Theorem canContact_decision
    (this : t) (contract phone segment : string) (w : World) :
  isEnabled this = true ->
  let v := validateRequest this contract segment (Some phone) in
  let c := checkRequest this contract phone segment in
  let r1 := normalized (partner w (calls w) v) in
  let r2 := normalized (partner w (calls w ++ [v]) c) in
  validateContract this contract segment (Some phone) w
  = (Resolved r1, called w [v])
  /\ checkAcionamento this contract phone segment (called w [v])
     = (Resolved r2, called w [v; c])
  /\ canContact this contract phone segment w
     = (if negb (sucesso r1) then
          (Resolved {| allowed := false; reason := mensagem r1 |},
           called w [v])
        else if negb (sucesso r2) then
          (Resolved {| allowed := false; reason := mensagem r2 |},
           called w [v; c])
        else
          (Resolved {| allowed := true; reason := "Cliente pode ser acionado" |},
           called w [v; c]))
  /\ exists made,
       snd (canContact this contract phone segment w) = called w made
       /\ Forall (fun r => method r = GET) made.
Proof.
  intros Hen v c r1 r2.
  assert (Hv : validateContract this contract segment (Some phone) w
               = (Resolved r1, called w [v]))
    by (apply validateContract_enabled; exact Hen).
  assert (Hc : checkAcionamento this contract phone segment (called w [v])
               = (Resolved r2, called w [v; c])).
  { rewrite checkAcionamento_enabled by exact Hen.
    rewrite called_called. reflexivity. }
  pose proof (canContact_enabled this contract phone segment w Hen) as Hcan.
  cbv zeta in Hcan. fold v c r1 r2 in Hcan.
  repeat split; try assumption.
  rewrite Hcan.
  destruct (negb (sucesso r1)); [|destruct (negb (sucesso r2))];
    eexists; (split; [reflexivity|]); repeat constructor.
Qed.

Lemma canContact_decision_witness :
  isEnabled demo = true
  /\ canContact demo "C-1001" "+55 11 91234-5678" "3" accepting
     = (Resolved {| allowed := true; reason := "Cliente pode ser acionado" |},
        called accepting
          [validateRequest demo "C-1001" "3" (Some "+55 11 91234-5678");
           checkRequest demo "C-1001" "+55 11 91234-5678" "3"]).
Proof.
  split; [reflexivity|].
  exact (proj1 (proj2 (proj2
    (canContact_decision demo "C-1001" "+55 11 91234-5678" "3" accepting
       eq_refl)))).
Defined.

(** *** Failures of the partner *)

(** C2, as stated, fails on one point: an error response whose mensagem
    field is present and empty does not yield that field but the generic
    message with the status. *)
Lemma handleApiError_empty_mensagem :
  errorDataMensagem (Data (Some "")) = Some ""
  /\ mensagem (handleApiError emptyMensagemError "validate-contract")
     = "Erro na API: 500"
  /\ mensagem (handleApiError emptyMensagemError "validate-contract") <> "".
Proof. repeat split. discriminate. Qed.

Lemma failureMessage_cases :
  (forall st m, m <> "" -> failureMessage (PartnerRejected st (Some m)) = m)
  /\ (forall st,
        failureMessage (PartnerRejected st (Some ""))
        = "Erro na API: " ++ Js.numberToString st)
  /\ (forall st,
        failureMessage (PartnerRejected st None)
        = "Erro na API: " ++ Js.numberToString st)
  /\ failureMessage PartnerUnavailable
     = "API CPC indispon" ++ String Js.iacute "vel - timeout"
  /\ (forall detail,
        failureMessage (PartnerConfigError detail)
        = "Erro interno: " ++ detail).
Proof.
  repeat split; try reflexivity.
  intros st [|a m] H; [contradiction | reflexivity].
Qed.

(** C2 (amended): with the gate enabled, each raw call makes its one
    request and resolves; when the request fails, the value is sucesso=false
    with the message of the cause: for an error status, the partner's own
    mensagem when it is present and not empty, else the generic message with
    the status; for no response, the fixed timeout message; for any other
    error, the internal-error message with the detail.  canContact resolves
    too. *)
Theorem partner_failures_are_results
    (this : t) (contract phone segment : string) (optPhone : option string)
    (w : World) :
  isEnabled this = true ->
  (forall e endpoint,
     handleApiError e endpoint
     = {| sucesso := false; mensagem := failureMessage (cause e) |})
  /\ validateContract this contract segment optPhone w
     = (Resolved
          (normalized
             (partner w (calls w)
                (validateRequest this contract segment optPhone))),
        called w [validateRequest this contract segment optPhone])
  /\ checkAcionamento this contract phone segment w
     = (Resolved
          (normalized
             (partner w (calls w)
                (checkRequest this contract phone segment))),
        called w [checkRequest this contract phone segment])
  /\ registerAcionamento this contract phone segment w
     = (Resolved
          (normalized
             (partner w (calls w)
                (registerRequest this contract phone segment))),
        called w [registerRequest this contract phone segment])
  /\ exists r w',
       canContact this contract phone segment w = (Resolved r, w').
Proof.
  intros Hen. repeat split.
  - intros e endpoint. apply handleApiError_normalized.
  - apply validateContract_enabled, Hen.
  - apply checkAcionamento_enabled, Hen.
  - apply registerAcionamento_enabled, Hen.
  - rewrite (canContact_enabled this contract phone segment w Hen).
    repeat match goal with
           | |- context [if ?b then _ else _] => destruct b
           end; eauto.
Qed.

Lemma partner_failures_are_results_witness :
  isEnabled demo = true
  /\ registerAcionamento demo "C-1001" "5511912345678" "3"
       {| partner := fun _ _ =>
            inl {| response := None; request := true;
                   message := "timeout of 30000ms exceeded" |};
          calls := [] |}
     = (Resolved
          {| sucesso := false;
             mensagem := "API CPC indispon" ++ String Js.iacute "vel - timeout" |},
        {| partner := fun _ _ =>
             inl {| response := None; request := true;
                    message := "timeout of 30000ms exceeded" |};
           calls := [registerRequest demo "C-1001" "5511912345678" "3"] |}).
Proof.
  split; [reflexivity|].
  exact (proj1 (proj2 (proj2 (proj2
    (partner_failures_are_results demo "C-1001" "5511912345678" "3" None
       {| partner := fun _ _ =>
            inl {| response := None; request := true;
                   message := "timeout of 30000ms exceeded" |};
          calls := [] |}
       eq_refl))))).
Defined.

(** *** The gate when it is disabled *)

Lemma constructor_disabled (configService : ConfigService) :
  configService "CPC_API_ENABLED" <> Some "true"
  \/ Js.truthy (configService "CPC_API_URL") = false ->
  isEnabled (constructor configService) = false.
Proof.
  unfold isEnabled, constructor. cbn [enabled apiUrl].
  intros [H|H].
  - destruct (configService "CPC_API_ENABLED") as [v|]; [|reflexivity].
    destruct (String.eqb_spec v "true") as [->|_]; [congruence|reflexivity].
  - apply andb_false_intro2.
    destruct (configService "CPC_API_URL") as [u|]; [|reflexivity].
    cbn [Js.truthy Js.orElse] in *.
    destruct (u =? "") eqn:E; [reflexivity | discriminate H].
Qed.

(** C3: when the enabled flag is not the string "true", or the base URL is
    missing or empty, each of the four operations resolves to its
    permissive result and leaves the world as it was: it makes no call. *)
Theorem disabled_gate_is_permissive
    (configService : ConfigService) (contract phone segment : string)
    (optPhone : option string) (w : World) :
  configService "CPC_API_ENABLED" <> Some "true"
  \/ Js.truthy (configService "CPC_API_URL") = false ->
  let this := constructor configService in
  validateContract this contract segment optPhone w
  = (Resolved {| sucesso := true; mensagem := "CPC API desabilitada" |}, w)
  /\ checkAcionamento this contract phone segment w
     = (Resolved {| sucesso := true; mensagem := "CPC API desabilitada" |}, w)
  /\ registerAcionamento this contract phone segment w
     = (Resolved {| sucesso := true; mensagem := "CPC API desabilitada" |}, w)
  /\ canContact this contract phone segment w
     = (Resolved {| allowed := true; reason := "CPC API desabilitada" |}, w).
Proof.
  intros H this. pose proof (constructor_disabled configService H) as Hdis.
  fold this in Hdis.
  unfold validateContract, checkAcionamento, registerAcionamento, canContact.
  rewrite Hdis. repeat split.
Qed.

Lemma disabled_gate_is_permissive_witness :
  canContact
    (constructor (fun key => if key =? "CPC_API_ENABLED" then Some "true"
                             else None))
    "C-1001" "5511912345678" "3" accepting
  = (Resolved {| allowed := true; reason := "CPC API desabilitada" |},
     accepting).
Proof.
  exact (proj2 (proj2 (proj2
    (disabled_gate_is_permissive
       (fun key => if key =? "CPC_API_ENABLED" then Some "true" else None)
       "C-1001" "5511912345678" "3" None accepting
       (or_intror eq_refl))))).
Defined.

End CpcFacts.

(** ** The contact directory *)

Module ContactsFacts.

Import ContactsService ContactsSpec.

(** *** Rows *)

Lemma apply_id (d : ContactData.t) (c : Contact.t) :
  Contact.id (ContactData.apply d c) = Contact.id c.
Proof. reflexivity. Qed.

Lemma find_hasId (i : Z) (l : list Contact.t) (c : Contact.t) :
  find (Prisma.hasId i) l = Some c -> In c l /\ Contact.id c = i.
Proof.
  intros H. apply find_some in H as [Hin Hid]. split; [exact Hin|].
  unfold Prisma.hasId in Hid. lia.
Qed.

Lemma find_hasPhone (p : string) (l : list Contact.t) (c : Contact.t) :
  find (Prisma.hasPhone p) l = Some c -> In c l /\ Contact.phone c = p.
Proof.
  intros H. apply find_some in H as [Hin Hp]. split; [exact Hin|].
  now apply String.eqb_eq.
Qed.

(** With the primary key in force, the row an id finds is the row. *)
Lemma find_by_own_id (l : list Contact.t) (c : Contact.t) :
  NoDup (map Contact.id l) -> In c l ->
  find (Prisma.hasId (Contact.id c)) l = Some c.
Proof.
  induction l as [|x l IH]; cbn [map In find]; [tauto|].
  intros Hnd [->|Hin].
  - unfold Prisma.hasId. now rewrite Z.eqb_refl.
  - inversion Hnd as [|? ? Hx Hl]; subst.
    unfold Prisma.hasId at 1.
    destruct (Z.eqb_spec (Contact.id x) (Contact.id c)) as [E|_].
    + exfalso. apply Hx. rewrite E. now apply in_map.
    + now apply IH.
Qed.

Lemma find_writeRow (i : Z) (d : ContactData.t) (l : list Contact.t)
    (c : Contact.t) :
  find (Prisma.hasId i) l = Some c ->
  find (Prisma.hasId i) (Prisma.writeRow i d l)
  = Some (ContactData.apply d c).
Proof.
  induction l as [|x l IH]; cbn [find Prisma.writeRow]; [discriminate|].
  destruct (Prisma.hasId i x) eqn:Hx.
  - intros [= ->]. cbn [find]. unfold Prisma.hasId in *.
    rewrite apply_id, Hx. reflexivity.
  - intros H. cbn [find]. rewrite Hx. now apply IH.
Qed.

(** A write that keeps the phone keeps the row findable by its phone. *)
Lemma find_phone_writeRow (p : string) (d : ContactData.t)
    (l : list Contact.t) (c : Contact.t) :
  NoDup (map Contact.id l) ->
  find (Prisma.hasPhone p) l = Some c ->
  Contact.phone (ContactData.apply d c) = p ->
  find (Prisma.hasPhone p) (Prisma.writeRow (Contact.id c) d l)
  = Some (ContactData.apply d c).
Proof.
  induction l as [|x l IH]; cbn [find Prisma.writeRow map]; [discriminate|].
  intros Hnd Hfind Hp. inversion Hnd as [|? ? Hx Hl]; subst.
  destruct (Prisma.hasPhone (Contact.phone (ContactData.apply d c)) x) eqn:Hpx.
  - injection Hfind as ->. unfold Prisma.hasId at 1. rewrite Z.eqb_refl.
    cbn [find]. unfold Prisma.hasPhone. now rewrite String.eqb_refl.
  - apply find_hasPhone in Hfind as Hc. destruct Hc as [Hin _].
    unfold Prisma.hasId at 1.
    destruct (Z.eqb_spec (Contact.id x) (Contact.id c)) as [E|_].
    + exfalso. apply Hx. rewrite E. now apply in_map.
    + cbn [find]. rewrite Hpx. now apply IH.
Qed.

Lemma nameChanged_true (n : string) (c : Contact.t) :
  Contact.name c <> Some n -> nameChanged (Some n) c = true.
Proof.
  unfold nameChanged. destruct (Contact.name c) as [old|]; [|reflexivity].
  intros H. destruct (String.eqb_spec n old) as [->|_]; [congruence|reflexivity].
Qed.

(** *** updateByPhone *)

(** What updateByPhone writes for a patch, on the contact it found. *)
Lemma updateByPhone_found
    (phone : string) (dto : UpdateContactDto.t) (w : World)
    (contact : Contact.t) :
  NoDup (map Contact.id (contacts w)) ->
  findByPhone phone w = (Resolved (Some contact), w) ->
  exists data w',
    updateByPhone phone dto w
    = (Resolved (ContactData.apply data contact), w')
    /\ contacts w' = Prisma.writeRow (Contact.id contact) data (contacts w)
    /\ ContactData.phone data = None
    /\ ContactData.name data = UpdateContactDto.name dto
    /\ ContactData.isCPC data = UpdateContactDto.isCPC dto
    /\ ContactData.lastCPCAt data
       = match UpdateContactDto.isCPC dto with
         | Some true => Some (Some (now w))
         | Some false => Some None
         | None => None
         end
    /\ ContactData.isNameManual data
       = if nameChanged (UpdateContactDto.name dto) contact then Some true
         else None.
Proof.
  intros Hnd Hfind.
  assert (Hp : find (Prisma.hasPhone phone) (contacts w) = Some contact).
  { unfold findByPhone, Prisma.contact_findFirst_phone in Hfind. congruence. }
  apply find_hasPhone in Hp as [Hin _].
  pose proof (find_by_own_id _ _ Hnd Hin) as Hid.
  unfold updateByPhone. unfold await at 1. rewrite Hfind.
  destruct (UpdateContactDto.isCPC dto) as [[|]|] eqn:HisCPC;
    destruct (nameChanged (UpdateContactDto.name dto) contact) eqn:Hname;
    unfold await, newDate, resolve, Prisma.contact_update,
      Prisma.conversation_updateMany;
    cbn [contacts]; rewrite Hid;
    eexists; eexists; (split; [reflexivity|]);
    cbn [contacts ContactData.phone ContactData.name ContactData.isCPC
         ContactData.lastCPCAt ContactData.isNameManual
         ContactData.setLastCPCAt ContactData.setIsNameManual
         ContactData.ofUpdate];
    rewrite ?HisCPC; repeat split.
Qed.

(** C6: for a contact found by phone, updateByPhone with isCPC=true stamps
    lastCPCAt with the current time, with isCPC=false clears it, and with a
    name other than the stored one sets isNameManual; the contact it returns
    carries these fields and is the row then stored under the contact's id
    and phone. *)
Theorem updateByPhone_derived_fields
    (phone : string) (dto : UpdateContactDto.t) (w : World)
    (contact : Contact.t) :
  NoDup (map Contact.id (contacts w)) ->
  findByPhone phone w = (Resolved (Some contact), w) ->
  exists updated w',
    updateByPhone phone dto w = (Resolved updated, w')
    /\ (UpdateContactDto.isCPC dto = Some true ->
        Contact.isCPC updated = true
        /\ Contact.lastCPCAt updated = Some (now w))
    /\ (UpdateContactDto.isCPC dto = Some false ->
        Contact.isCPC updated = false
        /\ Contact.lastCPCAt updated = None)
    /\ (forall n, UpdateContactDto.name dto = Some n ->
                  Contact.name contact <> Some n ->
                  Contact.name updated = Some n
                  /\ Contact.isNameManual updated = true)
    /\ findOne (Contact.id contact) w' = (Resolved updated, w')
    /\ findByPhone phone w' = (Resolved (Some updated), w').
Proof.
  intros Hnd Hfind.
  destruct (updateByPhone_found phone dto w contact Hnd Hfind)
    as (data & w' & Hrun & Hrows & Hphone & Hname & HisCPC & Hlast & Hmanual).
  assert (Hp : find (Prisma.hasPhone phone) (contacts w) = Some contact).
  { unfold findByPhone, Prisma.contact_findFirst_phone in Hfind. congruence. }
  pose proof (find_hasPhone _ _ _ Hp) as [Hin Hcp].
  pose proof (find_by_own_id _ _ Hnd Hin) as Hid.
  exists (ContactData.apply data contact), w'.
  split; [exact Hrun|].
  unfold ContactData.apply; cbn [Contact.isCPC Contact.lastCPCAt Contact.name
                                 Contact.isNameManual].
  rewrite Hname, HisCPC, Hlast, Hmanual.
  split; [intros ->; split; reflexivity|].
  split; [intros ->; split; reflexivity|].
  split.
  { intros n Hn Hdiff. rewrite Hn. rewrite (nameChanged_true _ _ Hdiff).
    split; reflexivity. }
  split.
  - unfold findOne, await, Prisma.contact_findUnique_id, resolve.
    rewrite Hrows, (find_writeRow _ data _ _ Hid).
    unfold ContactData.apply. rewrite Hname, HisCPC, Hlast, Hmanual.
    reflexivity.
  - unfold findByPhone, Prisma.contact_findFirst_phone.
    rewrite Hrows, (find_phone_writeRow phone data _ _ Hnd Hp).
    + unfold ContactData.apply. rewrite Hname, HisCPC, Hlast, Hmanual.
      reflexivity.
    + unfold ContactData.apply. cbn [Contact.phone]. rewrite Hphone.
      exact Hcp.
Qed.

Ltac distinct_ids :=
  cbn [map contacts Contact.id];
  repeat (constructor; [cbn [In]; intuition discriminate|]);
  constructor.

Lemma updateByPhone_derived_fields_witness :
  exists updated w',
    updateByPhone "5511999999999" markCPC office = (Resolved updated, w')
    /\ Contact.isCPC updated = true
    /\ Contact.lastCPCAt updated = Some 5000%Z
    /\ findByPhone "5511999999999" w' = (Resolved (Some updated), w').
Proof.
  destruct (updateByPhone_derived_fields "5511999999999" markCPC office ana
              ltac:(distinct_ids) eq_refl)
    as (updated & w' & Hrun & Htrue & _ & _ & _ & Hstored).
  exists updated, w'. repeat split.
  - exact Hrun.
  - apply Htrue. reflexivity.
  - apply Htrue. reflexivity.
  - exact Hstored.
Defined.

(** The spec's pair of calls: isCPC=true stamps the timestamp, a later
    isCPC=false clears it. *)
Example updateByPhone_stamp_then_clear :
  exists stamped w1 cleared w2,
    updateByPhone "5511999999999" markCPC office = (Resolved stamped, w1)
    /\ Contact.lastCPCAt stamped = Some 5000%Z
    /\ updateByPhone "5511999999999"
         {| UpdateContactDto.name := None; UpdateContactDto.cpf := None;
            UpdateContactDto.segment := None;
            UpdateContactDto.isCPC := Some false |} w1
       = (Resolved cleared, w2)
    /\ Contact.lastCPCAt cleared = None.
Proof.
  do 4 eexists.
  split; [cbv; reflexivity|]. split; [reflexivity|].
  split; [cbv; reflexivity | reflexivity].
Qed.

(** *** create on a contact that exists *)

Lemma create_existing
    (dto : CreateContactDto.t) (w : World) (existing : Contact.t) :
  NoDup (map Contact.id (contacts w)) ->
  findByPhone (CreateContactDto.phone dto) w = (Resolved (Some existing), w) ->
  exists w',
    create dto w
    = (Resolved (ContactData.apply (ContactData.ofCreate dto) existing), w')
    /\ contacts w'
       = Prisma.writeRow (Contact.id existing) (ContactData.ofCreate dto)
           (contacts w).
Proof.
  intros Hnd Hfind.
  assert (Hp : find (Prisma.hasPhone (CreateContactDto.phone dto)) (contacts w)
               = Some existing).
  { unfold findByPhone, Prisma.contact_findFirst_phone in Hfind. congruence. }
  pose proof (find_hasPhone _ _ _ Hp) as [Hin _].
  pose proof (find_by_own_id _ _ Hnd Hin) as Hid.
  unfold create. unfold await at 1.
  unfold Prisma.contact_findUnique_phone. rewrite Hp.
  unfold await, Prisma.contact_update. rewrite Hid.
  destruct (nameIsPresent (CreateContactDto.name dto));
    eexists; split; reflexivity.
Qed.

(** C10: for a contact that exists with isNameManual set, create with an
    input that carries a name stores that name, and every other field the
    input provides, on the contact; the flag stays set and blocks nothing. *)
Theorem create_overwrites_manual_name
    (dto : CreateContactDto.t) (w : World) (existing : Contact.t)
    (n : string) :
  NoDup (map Contact.id (contacts w)) ->
  findByPhone (CreateContactDto.phone dto) w = (Resolved (Some existing), w) ->
  Contact.isNameManual existing = true ->
  CreateContactDto.name dto = Some n ->
  exists updated w',
    create dto w = (Resolved updated, w')
    /\ Contact.name updated = Some n
    /\ (forall v, CreateContactDto.cpf dto = Some v ->
                  Contact.cpf updated = Some v)
    /\ (forall v, CreateContactDto.segment dto = Some v ->
                  Contact.segment updated = Some v)
    /\ Contact.phone updated = CreateContactDto.phone dto
    /\ Contact.id updated = Contact.id existing
    /\ Contact.isNameManual updated = true
    /\ findOne (Contact.id existing) w' = (Resolved updated, w').
Proof.
  intros Hnd Hfind Hmanual Hname.
  destruct (create_existing dto w existing Hnd Hfind) as (w' & Hrun & Hrows).
  assert (Hp : find (Prisma.hasPhone (CreateContactDto.phone dto)) (contacts w)
               = Some existing).
  { unfold findByPhone, Prisma.contact_findFirst_phone in Hfind. congruence. }
  pose proof (find_hasPhone _ _ _ Hp) as [Hin _].
  pose proof (find_by_own_id _ _ Hnd Hin) as Hid.
  exists (ContactData.apply (ContactData.ofCreate dto) existing), w'.
  split; [exact Hrun|].
  unfold ContactData.apply, ContactData.ofCreate;
    cbn [Contact.name Contact.cpf Contact.segment Contact.phone Contact.id
         Contact.isNameManual ContactData.name ContactData.cpf
         ContactData.segment ContactData.phone ContactData.isNameManual
         ContactData.orKeep ContactData.orKeepOpt].
  rewrite Hname.
  split; [reflexivity|].
  split; [intros v ->; reflexivity|].
  split; [intros v ->; reflexivity|].
  split; [reflexivity|].
  split; [reflexivity|].
  split; [exact Hmanual|].
  unfold findOne, await, Prisma.contact_findUnique_id, resolve.
  rewrite Hrows, (find_writeRow _ (ContactData.ofCreate dto) _ _ Hid).
  unfold ContactData.apply, ContactData.ofCreate;
    cbn [ContactData.name ContactData.cpf ContactData.segment
         ContactData.phone ContactData.isNameManual ContactData.isCPC
         ContactData.lastCPCAt ContactData.orKeep ContactData.orKeepOpt].
  rewrite Hname. reflexivity.
Qed.

Lemma create_overwrites_manual_name_witness :
  Contact.isNameManual ana = true
  /\ exists updated w',
       create (named "5511999999999" "Ana Souza") office
       = (Resolved updated, w')
       /\ Contact.name updated = Some "Ana Souza"
       /\ Contact.isNameManual updated = true.
Proof.
  split; [reflexivity|].
  destruct (create_overwrites_manual_name
              (named "5511999999999" "Ana Souza") office ana "Ana Souza"
              ltac:(distinct_ids) eq_refl eq_refl eq_refl)
    as (updated & w' & Hrun & Hname & _ & _ & _ & _ & Hmanual & _).
  exists updated, w'. repeat split; assumption.
Defined.

(** *** Names on conversations *)

Lemma find_some_id (l : list Contact.t) (c : Contact.t) :
  In c l -> exists c', find (Prisma.hasId (Contact.id c)) l = Some c'.
Proof.
  intros Hin.
  destruct (find (Prisma.hasId (Contact.id c)) l) as [c'|] eqn:E;
    [now exists c'|].
  exfalso. pose proof (find_none _ _ E c Hin) as H.
  unfold Prisma.hasId in H. rewrite Z.eqb_refl in H. discriminate.
Qed.

Lemma nameIsPresent_nonblank (n : string) :
  Js.trim n <> "" -> nameIsPresent (Some n) = true.
Proof.
  intros H. unfold nameIsPresent, Js.truthy.
  apply andb_true_intro. split; apply negb_true_iff, String.eqb_neq.
  - intros ->. now apply H.
  - exact H.
Qed.

Lemma create_conversations
    (w : World) (dto : CreateContactDto.t) (n : string) :
  CreateContactDto.name dto = Some n ->
  Js.trim n <> "" ->
  exists contact w',
    create dto w = (Resolved contact, w')
    /\ conversations w'
       = map (rewritePlaceholder "Desconhecido" (CreateContactDto.phone dto) n)
           (conversations w).
Proof.
  intros Hname Hn.
  pose proof (nameIsPresent_nonblank n Hn) as Hpresent.
  unfold create. unfold await at 1. unfold Prisma.contact_findUnique_phone.
  rewrite Hname, Hpresent.
  destruct (find (Prisma.hasPhone (CreateContactDto.phone dto)) (contacts w))
    as [existing|] eqn:Hfind.
  - apply find_hasPhone in Hfind as [Hin Hphone].
    destruct (find_some_id _ _ Hin) as [c' Hid].
    unfold await, Prisma.contact_update, Prisma.conversation_updateMany,
      resolve.
    rewrite Hid, Hphone. do 2 eexists. split; reflexivity.
  - unfold await, Prisma.contact_create, Prisma.conversation_updateMany,
      resolve.
    do 2 eexists. split; reflexivity.
Qed.

Lemma update_conversations
    (w : World) (id : Z) (patch : UpdateContactDto.t) (contact : Contact.t)
    (m : string) :
  findOne id w = (Resolved contact, w) ->
  UpdateContactDto.name patch = Some m ->
  Contact.name contact <> Some m ->
  exists updated w',
    update id patch w = (Resolved updated, w')
    /\ conversations w'
       = map (rewriteAll (Contact.phone contact) m) (conversations w).
Proof.
  intros Hfind Hname Hdiff.
  assert (Hid : find (Prisma.hasId id) (contacts w) = Some contact).
  { unfold findOne, await, Prisma.contact_findUnique_id in Hfind.
    destruct (find (Prisma.hasId id) (contacts w)); [|discriminate].
    unfold resolve in Hfind. congruence. }
  unfold update. unfold await at 1. rewrite Hfind.
  unfold await, Prisma.contact_update, Prisma.conversation_updateMany,
    resolve.
  rewrite Hid, Hname, (nameChanged_true _ _ Hdiff).
  do 2 eexists. split; reflexivity.
Qed.

Lemma updateByPhone_conversations
    (w : World) (phone : string) (patch : UpdateContactDto.t)
    (contact : Contact.t) (m : string) :
  findByPhone phone w = (Resolved (Some contact), w) ->
  UpdateContactDto.name patch = Some m ->
  Contact.name contact <> Some m ->
  exists updated w',
    updateByPhone phone patch w = (Resolved updated, w')
    /\ conversations w' = map (rewriteAll phone m) (conversations w).
Proof.
  intros Hfind Hname Hdiff.
  assert (Hp : find (Prisma.hasPhone phone) (contacts w) = Some contact).
  { unfold findByPhone, Prisma.contact_findFirst_phone in Hfind. congruence. }
  apply find_hasPhone in Hp as [Hin _].
  destruct (find_some_id _ _ Hin) as [c' Hid].
  unfold updateByPhone. unfold await at 1. rewrite Hfind.
  rewrite Hname, (nameChanged_true _ _ Hdiff).
  destruct (UpdateContactDto.isCPC patch) as [[|]|];
    unfold await, newDate, Prisma.contact_update,
      Prisma.conversation_updateMany, resolve;
    cbn [contacts]; rewrite Hid; do 2 eexists; split; reflexivity.
Qed.

(** C7, as stated, fails: the placeholder of the code is not "Unknown".
    The spec's own case, a contact created with the name "Ana" for the phone
    of a conversation named "Unknown", leaves that conversation as it is. *)
Lemma create_leaves_Unknown :
  conversations (snd (create (named "5511999999999" "Ana") inbox))
  = [conversation "5511999999999" "Unknown"]
  /\ map (rewritePlaceholder "Unknown" "5511999999999" "Ana")
       (conversations inbox)
     = [conversation "5511999999999" "Ana"].
Proof. split; reflexivity. Qed.

(** C7 (amended): on the create path, whatever the table holds, a name
    that is not blank replaces contactName on the conversations of that
    phone that hold the placeholder "Desconhecido", and on no other; on the
    update paths (update by id, updateByPhone) a changed name replaces
    contactName on every conversation of the contact's phone. *)
Theorem name_propagation (w : World) :
  (forall dto n,
     CreateContactDto.name dto = Some n ->
     Js.trim n <> "" ->
     exists created w',
       create dto w = (Resolved created, w')
       /\ conversations w'
          = map (rewritePlaceholder "Desconhecido"
                   (CreateContactDto.phone dto) n)
              (conversations w))
  /\ (forall p n cv,
        Conversation.contactName cv <> "Desconhecido" ->
        rewritePlaceholder "Desconhecido" p n cv = cv)
  /\ (forall id patch contact m,
        findOne id w = (Resolved contact, w) ->
        UpdateContactDto.name patch = Some m ->
        Contact.name contact <> Some m ->
        exists updated w',
          update id patch w = (Resolved updated, w')
          /\ conversations w'
             = map (rewriteAll (Contact.phone contact) m) (conversations w))
  /\ (forall phone patch contact m,
        findByPhone phone w = (Resolved (Some contact), w) ->
        UpdateContactDto.name patch = Some m ->
        Contact.name contact <> Some m ->
        exists updated w',
          updateByPhone phone patch w = (Resolved updated, w')
          /\ conversations w' = map (rewriteAll phone m) (conversations w)).
Proof.
  split; [|split; [|split]].
  - intros dto n Hname Hn. now apply create_conversations.
  - intros p n cv Hcv. unfold rewritePlaceholder.
    apply String.eqb_neq in Hcv. rewrite Hcv, andb_false_r. reflexivity.
  - intros id patch contact m Hfind Hpatch Hdiff.
    now apply update_conversations.
  - intros phone patch contact m Hfind Hpatch Hdiff.
    now apply updateByPhone_conversations with (contact := contact).
Qed.

Lemma name_propagation_witness :
  (exists created w',
     create (named "5511999999999" "Ana") inbox = (Resolved created, w')
     /\ conversations w' = [conversation "5511999999999" "Unknown"])
  /\ (exists created w',
        create (named "5511999999999" "Ana") office = (Resolved created, w')
        /\ conversations w'
           = [conversation "5511999999999" "Ana";
              conversation "5511999999999" "Unknown";
              conversation "5511999999999" "Aninha";
              conversation "5521988887777" "Desconhecido"])
  /\ (exists updated w',
        update 1 (rename "Ana") office = (Resolved updated, w')
        /\ conversations w'
           = [conversation "5511999999999" "Ana";
              conversation "5511999999999" "Ana";
              conversation "5511999999999" "Ana";
              conversation "5521988887777" "Desconhecido"])
  /\ (exists updated w',
        updateByPhone "5511999999999" (rename "Ana") office
        = (Resolved updated, w')
        /\ conversations w'
           = [conversation "5511999999999" "Ana";
              conversation "5511999999999" "Ana";
              conversation "5511999999999" "Ana";
              conversation "5521988887777" "Desconhecido"]).
Proof.
  split; [|split; [|split]].
  - exact (proj1 (name_propagation inbox)
             (named "5511999999999" "Ana") "Ana" eq_refl ltac:(discriminate)).
  - exact (proj1 (name_propagation office)
             (named "5511999999999" "Ana") "Ana" eq_refl ltac:(discriminate)).
  - exact (proj1 (proj2 (proj2 (name_propagation office)))
             1 (rename "Ana") ana "Ana" eq_refl eq_refl ltac:(discriminate)).
  - exact (proj2 (proj2 (proj2 (name_propagation office)))
             "5511999999999" (rename "Ana") ana "Ana" eq_refl eq_refl
             ltac:(discriminate)).
Defined.

(** *** list *)

Lemma insert_permutation (c : Contact.t) (l : list Contact.t) :
  Permutation (Prisma.insertByCreatedAtDesc c l) (c :: l).
Proof.
  induction l as [|x l IH]; cbn [Prisma.insertByCreatedAtDesc]; [reflexivity|].
  destruct (Contact.createdAt x <=? Contact.createdAt c)%Z; [reflexivity|].
  rewrite IH. apply perm_swap.
Qed.

Lemma orderBy_permutation (l : list Contact.t) :
  Permutation (Prisma.orderByCreatedAtDesc l) l.
Proof.
  induction l as [|x l IH]; cbn; [reflexivity|].
  fold (Prisma.orderByCreatedAtDesc l).
  rewrite insert_permutation. now constructor.
Qed.

Lemma insert_newestFirst (c : Contact.t) (l : list Contact.t) :
  newestFirst l -> newestFirst (Prisma.insertByCreatedAtDesc c l).
Proof.
  unfold newestFirst.
  induction l as [|x l IH]; cbn [Prisma.insertByCreatedAtDesc]; intros Hs.
  - repeat constructor.
  - inversion Hs as [|? ? Hl Hx]; subst.
    destruct (Z.leb_spec (Contact.createdAt x) (Contact.createdAt c))
      as [Hle|Hlt].
    + constructor; [exact Hs|]. constructor; [exact Hle|].
      eapply Forall_impl; [|exact Hx]. cbv beta. intros b Hb. lia.
    + constructor; [now apply IH|].
      eapply Permutation_Forall;
        [symmetry; apply insert_permutation|].
      constructor; [lia | exact Hx].
Qed.

Lemma orderBy_newestFirst (l : list Contact.t) :
  newestFirst (Prisma.orderByCreatedAtDesc l).
Proof.
  induction l as [|x l IH]; cbn; [constructor|].
  now apply insert_newestFirst.
Qed.

(** The [where] of findAll is the filter of the spec, with a segment of 0
    read as none. *)
Lemma findAll_where (search : option string) (segment : option Z)
    (c : Contact.t) :
  ((if Js.truthy search then
      Prisma.containsInsensitive (Contact.name c) (the search)
      || Prisma.contains (Some (Contact.phone c)) (the search)
      || Prisma.contains (Contact.cpf c) (the search)
    else true)
   && (if Js.truthyNumber segment then
         match segment with
         | Some n => Prisma.equalsNumber (Contact.segment c) n
         | None => true
         end
       else true))%bool
  = matches search (givenSegment segment) c.
Proof.
  unfold matches. f_equal.
  - destruct search as [[|a text]|]; cbn [Js.truthy the]; try reflexivity.
    cbn [String.eqb negb]. rewrite JsFacts.contains_empty.
    now rewrite orb_true_r.
  - destruct segment as [[|n|n]|]; reflexivity.
Qed.

(** C8, as stated, fails: a segment filter of 0 filters nothing, so the
    list holds contacts of segments 5 and 7. *)
Lemma findAll_segment_zero :
  fst (findAll None (Some 0%Z) office) = Resolved [bruno; ana]
  /\ matches None (Some 0%Z) bruno = false
  /\ matches None (Some 0%Z) ana = false.
Proof. repeat split. Qed.

(** C8 (amended): list resolves to exactly the contacts that match the
    filter, newest first, where the search text matches the name without
    regard to case, or occurs in the phone, or in the cpf, and a segment
    other than 0 is matched exactly; a segment of 0 is read as no segment,
    and the empty filter returns every contact. *)
Theorem findAll_matches_newest_first
    (search : option string) (segment : option Z) (w : World) :
  exists l,
    findAll search segment w = (Resolved l, w)
    /\ Permutation l
         (filter (matches search (givenSegment segment)) (contacts w))
    /\ (forall c, In c l <->
                  In c (contacts w)
                  /\ matches search (givenSegment segment) c = true)
    /\ newestFirst l
    /\ (search = None -> segment = None -> Permutation l (contacts w)).
Proof.
  eexists. split; [reflexivity|].
  assert (Hperm :
    Permutation
      (Prisma.orderByCreatedAtDesc
         (filter
            (fun c =>
               (if Js.truthy search then
                  Prisma.containsInsensitive (Contact.name c) (the search)
                  || Prisma.contains (Some (Contact.phone c)) (the search)
                  || Prisma.contains (Contact.cpf c) (the search)
                else true)
               && (if Js.truthyNumber segment then
                     match segment with
                     | Some n => Prisma.equalsNumber (Contact.segment c) n
                     | None => true
                     end
                   else true))%bool
            (contacts w)))
      (filter (matches search (givenSegment segment)) (contacts w))).
  { rewrite orderBy_permutation.
    rewrite (filter_ext _ _ (findAll_where search segment)). reflexivity. }
  split; [exact Hperm|]. split; [|split].
  - intros c. rewrite <- filter_In. split; intros H.
    + eapply Permutation_in; [exact Hperm | exact H].
    + eapply Permutation_in; [symmetry; exact Hperm | exact H].
  - apply orderBy_newestFirst.
  - intros -> ->. rewrite Hperm. cbn [givenSegment].
    clear. induction (contacts w) as [|x l IH]; cbn; [reflexivity|].
    now constructor.
Qed.

Example findAll_by_name :
  fst (findAll (Some "ANA") None office) = Resolved [ana].
Proof. reflexivity. Qed.

Example findAll_by_cpf_and_segment :
  fst (findAll (Some "4567") (Some 7%Z) office) = Resolved [bruno]
  /\ fst (findAll (Some "4567") (Some 5%Z) office) = Resolved [].
Proof. split; reflexivity. Qed.

(** *** The CPC flag and its timestamp *)

(** C4 (the code on its failing input): update by id with isCPC=true sets
    the flag of a contact that was not CPC and leaves lastCPCAt null, where
    updateByPhone with the same patch on the same contact stamps it. *)
Theorem update_sets_isCPC_without_lastCPCAt :
  Contact.isCPC ana = false
  /\ (exists updated w',
        update 1 markCPC office = (Resolved updated, w')
        /\ Contact.isCPC updated = true
        /\ Contact.lastCPCAt updated = None
        /\ findOne 1 w' = (Resolved updated, w'))
  /\ (exists updated w',
        updateByPhone "5511999999999" markCPC office = (Resolved updated, w')
        /\ Contact.isCPC updated = true
        /\ Contact.lastCPCAt updated = Some 5000%Z).
Proof.
  split; [reflexivity|]. split.
  - do 2 eexists. split; [cbv; reflexivity|]. repeat split.
  - do 2 eexists. split; [cbv; reflexivity|]. repeat split.
Qed.

(** *** The primary key is an invariant of the service *)

Lemma ids_writeRow (i : Z) (d : ContactData.t) (l : list Contact.t) :
  map Contact.id (Prisma.writeRow i d l) = map Contact.id l.
Proof.
  induction l as [|x l IH]; cbn [Prisma.writeRow map]; [reflexivity|].
  destruct (Prisma.hasId i x); cbn [map]; [reflexivity | now rewrite IH].
Qed.

Lemma consistent_ids (w w' : World) :
  map Contact.id (contacts w') = map Contact.id (contacts w) ->
  nextId w' = nextId w ->
  consistent w -> consistent w'.
Proof.
  unfold consistent. intros Hids Hnext [Hnd Hlt].
  rewrite Hids, Hnext. split; [exact Hnd|].
  apply Forall_forall. intros c Hc.
  apply (in_map Contact.id) in Hc. rewrite Hids in Hc.
  apply in_map_iff in Hc as (c0 & <- & Hc0).
  rewrite Forall_forall in Hlt. now apply Hlt.
Qed.

Lemma preserves_contact_update (i : Z) (d : ContactData.t) :
  preserves consistent (Prisma.contact_update i d).
Proof.
  intros w H. unfold Prisma.contact_update.
  destruct (find (Prisma.hasId i) (contacts w)); cbn [snd]; [|exact H].
  apply (consistent_ids w); [apply ids_writeRow | reflexivity | exact H].
Qed.

Lemma preserves_conversation_updateMany
    (where_ : Conversation.t -> bool) (n : string) :
  preserves consistent (Prisma.conversation_updateMany where_ n).
Proof. intros w H. exact H. Qed.

Lemma preserves_contact_create (d : ContactData.t) :
  preserves consistent (Prisma.contact_create d).
Proof.
  intros w [Hnd Hlt]. unfold Prisma.contact_create, consistent.
  cbn [snd contacts nextId]. rewrite map_app. cbn [map].
  rewrite apply_id. cbn [Prisma.freshRow Contact.id].
  rewrite Forall_forall in Hlt. split.
  - apply NoDup_app; [exact Hnd | repeat constructor; cbn; tauto|].
    intros i Hi [<-|[]]. apply in_map_iff in Hi as (c & Hc & Hin).
    specialize (Hlt c Hin). lia.
  - apply Forall_app. split.
    + apply Forall_forall. intros c Hin. specialize (Hlt c Hin). lia.
    + repeat constructor. rewrite apply_id. cbn [Prisma.freshRow Contact.id].
      lia.
Qed.

Lemma preserves_contact_delete (i : Z) :
  preserves consistent (Prisma.contact_delete i).
Proof.
  intros w [Hnd Hlt]. unfold Prisma.contact_delete.
  destruct (find (Prisma.hasId i) (contacts w)); cbn [snd];
    [|split; assumption].
  unfold consistent. cbn [contacts nextId]. split.
  - clear Hlt. induction (contacts w) as [|x l IH]; cbn; [constructor|].
    inversion Hnd as [|? ? Hx Hl]; subst.
    destruct (negb (Prisma.hasId i x)); cbn [map]; [|now apply IH].
    constructor; [|now apply IH].
    intros Hin. apply Hx. apply in_map_iff in Hin as (c & Hc & Hin).
    apply filter_In in Hin as [Hin _]. rewrite <- Hc. now apply in_map.
  - apply Forall_forall. intros c Hin. apply filter_In in Hin as [Hin _].
    rewrite Forall_forall in Hlt. now apply Hlt.
Qed.

Lemma preserves_findOne (id : Z) : preserves consistent (findOne id).
Proof.
  unfold findOne. apply preserves_await; [intros w H; exact H|].
  intros [c|]; [apply preserves_resolve | apply preserves_throw].
Qed.

Ltac keeps :=
  repeat first
    [ apply preserves_await; [|intros ?]
    | apply preserves_resolve
    | apply preserves_throw
    | apply preserves_contact_update
    | apply preserves_contact_create
    | apply preserves_contact_delete
    | apply preserves_conversation_updateMany
    | apply preserves_findOne
    | match goal with
      | |- preserves _ (if ?b then _ else _) => destruct b
      | |- preserves _ (match ?x with _ => _ end) => destruct x
      end
    | (intros w H; exact H) ].

(** Every operation that writes keeps the ids distinct. *)
Theorem consistent_invariant :
  (forall dto, preserves consistent (create dto))
  /\ (forall id patch, preserves consistent (update id patch))
  /\ (forall phone patch, preserves consistent (updateByPhone phone patch))
  /\ (forall id, preserves consistent (remove id)).
Proof.
  split; [|split; [|split]]; intros.
  - unfold create. keeps.
  - unfold update. keeps.
  - unfold updateByPhone, findByPhone. keeps.
  - unfold remove. keeps.
Qed.

Lemma consistent_office : consistent office.
Proof.
  split; [distinct_ids|].
  repeat constructor.
Qed.

End ContactsFacts.

(** * Further properties of the gate *)

Module CpcMore.

Import CpcValidationService CpcSpec.

(** ** Phone normalization *)

Lemma filter_fixed_all (f : ascii -> bool) (s : string) :
  Js.filter f s = s ->
  Forall (fun c => f c = true) (list_ascii_of_string s).
Proof.
  induction s as [|c s IH]; intros H; cbn [list_ascii_of_string];
    [constructor|].
  apply JsFacts.filter_fixed_cons in H as [Hc Hs].
  constructor; [exact Hc | now apply IH].
Qed.

Lemma formatPhoneForPartner_fixed (p : string) :
  Js.filter Js.isDigit (formatPhoneForPartner p) = formatPhoneForPartner p.
Proof.
  unfold formatPhoneForPartner, Js.replaceNonDigits.
  pose proof (JsFacts.filter_idempotent Js.isDigit p) as Hfix.
  destruct (Js.startsWith (Js.filter Js.isDigit p) "55"
            && (11 <? String.length (Js.filter Js.isDigit p))%nat).
  - now apply JsFacts.filter_substring.
  - exact Hfix.
Qed.

(** X1: What is sent to the partner as a phone holds digits only. *)
Theorem formatPhoneForPartner_digits (p : string) :
  Forall (fun c => Js.isDigit c = true)
    (list_ascii_of_string (formatPhoneForPartner p)).
Proof. apply filter_fixed_all, formatPhoneForPartner_fixed. Qed.

(** X2: Normalization removes nothing from the digits of the phone but one
    leading "55", and leaves at least ten digits when it removes it; digits
    that are no more than eleven, or do not start with "55", are kept. *)
Theorem formatPhoneForPartner_drops_only_55 (p : string) :
  (formatPhoneForPartner p = Js.replaceNonDigits p
   \/ (Js.replaceNonDigits p = "55" ++ formatPhoneForPartner p
       /\ (10 <= String.length (formatPhoneForPartner p))%nat))
  /\ ((String.length (Js.replaceNonDigits p) <= 11)%nat ->
      formatPhoneForPartner p = Js.replaceNonDigits p)
  /\ (Js.startsWith (Js.replaceNonDigits p) "55" = false ->
      formatPhoneForPartner p = Js.replaceNonDigits p).
Proof.
  unfold formatPhoneForPartner.
  destruct (Js.startsWith (Js.replaceNonDigits p) "55") eqn:H55;
    cbn [andb].
  - destruct (JsFacts.startsWith_55 _ H55) as [rest ->].
    cbn [String.length Js.substring].
    destruct (Nat.ltb_spec 11 (S (S (String.length rest)))) as [Hlt|Hle].
    + split; [right; split; [reflexivity | lia]|].
      split; [intros H; lia | discriminate].
    + split; [now left|]. split; [reflexivity | discriminate].
  - split; [now left|]. split; reflexivity.
Qed.

(** ** The query strings *)

Lemma encodeURIComponent_digits (s : string) :
  Js.filter Js.isDigit s = s -> Js.encodeURIComponent s = s.
Proof.
  induction s as [|c s IH]; intros H; [reflexivity|].
  apply JsFacts.filter_fixed_cons in H as [Hc Hs].
  cbn [Js.encodeURIComponent]. unfold Js.isUnreserved.
  rewrite Hc, orb_true_r. cbn [orb append]. now rewrite IH.
Qed.

Lemma digits_no_ampersand (s : string) :
  Js.filter Js.isDigit s = s -> ~ In "&"%char (list_ascii_of_string s).
Proof.
  intros H Hin. apply filter_fixed_all in H.
  rewrite Forall_forall in H. specialize (H _ Hin). discriminate H.
Qed.

Lemma paramNames_last (k v : string) :
  ~ In "&"%char (list_ascii_of_string (k ++ String "=" v)) ->
  ~ In "="%char (list_ascii_of_string k) ->
  paramNames (k ++ String "=" v) = [k].
Proof.
  intros Hamp Heq. unfold paramNames.
  rewrite (CpcFacts.split_without _ _ Hamp). cbn [map].
  now rewrite (CpcFacts.split_at_first _ _ _ Heq).
Qed.

Lemma paramNames_cons (k v rest : string) :
  ~ In "&"%char (list_ascii_of_string (k ++ String "=" v)) ->
  ~ In "="%char (list_ascii_of_string k) ->
  paramNames ((k ++ String "=" v) ++ String "&" rest) = k :: paramNames rest.
Proof.
  intros Hamp Heq. unfold paramNames.
  rewrite (CpcFacts.split_at_first _ _ _ Hamp). cbn [map].
  now rewrite (CpcFacts.split_at_first _ _ _ Heq).
Qed.

Ltac no_separator :=
  first
    [ vm_compute; intuition discriminate
    | rewrite JsFacts.chars_append, in_app_iff;
      intros [H|H]; [vm_compute in H; intuition discriminate|];
      cbn [list_ascii_of_string In] in H;
      destruct H as [H|H]; [discriminate H|];
      first [ exact (JsFacts.encodeURIComponent_no_ampersand _ H)
            | exact (digits_no_ampersand _ (formatPhoneForPartner_fixed _) H) ] ].

Lemma paramNames_checkQuery (contract phone segment : string) :
  paramNames (checkQuery contract phone segment)
  = ["contrato"; "telefone"; "segmento"].
Proof.
  unfold checkQuery.
  replace ("contrato=" ++ Js.encodeURIComponent contract
           ++ "&telefone=" ++ formatPhoneForPartner phone
           ++ "&segmento=" ++ Js.encodeURIComponent segment)
    with (("contrato" ++ String "=" (Js.encodeURIComponent contract))
          ++ String "&"
               (("telefone" ++ String "=" (formatPhoneForPartner phone))
                ++ String "&"
                     ("segmento" ++ String "="
                                      (Js.encodeURIComponent segment))))
    by (rewrite !JsFacts.append_assoc; reflexivity).
  rewrite !paramNames_cons, paramNames_last; try reflexivity; no_separator.
Qed.

Lemma paramNames_validateQueryWith (contract segment phone : string) :
  paramNames (validateQueryWith contract segment phone)
  = ["contrato"; "segmento"; "telefone"].
Proof.
  unfold validateQueryWith.
  replace ("contrato=" ++ Js.encodeURIComponent contract
           ++ "&segmento=" ++ Js.encodeURIComponent segment
           ++ "&telefone=" ++ formatPhoneForPartner phone)
    with (("contrato" ++ String "=" (Js.encodeURIComponent contract))
          ++ String "&"
               (("segmento" ++ String "=" (Js.encodeURIComponent segment))
                ++ String "&"
                     ("telefone" ++ String "="
                                      (formatPhoneForPartner phone))))
    by (rewrite !JsFacts.append_assoc; reflexivity).
  rewrite !paramNames_cons, paramNames_last; try reflexivity; no_separator.
Qed.

(** X3: With the gate enabled, the one request of checkAcionamento, for
    every phone, and of validateContract with a phone that is not empty, has
    a query string of exactly three parameters, contrato, telefone, segmento
    (contrato, segmento, telefone for validate-contract), whatever the
    arguments hold; the telefone is the normalized phone, digit for digit. *)
Theorem queries_have_three_parameters
    (this : t) (contract phone segment : string) (w : World) :
  isEnabled this = true ->
  calls (snd (checkAcionamento this contract phone segment w))
  = (calls w
     ++ [get this (apiUrl this ++ "/check-acionamento?"
                   ++ checkQuery contract phone segment)])%list
  /\ paramNames (checkQuery contract phone segment)
     = ["contrato"; "telefone"; "segmento"]
  /\ (phone <> "" ->
      calls (snd (validateContract this contract segment (Some phone) w))
      = (calls w
         ++ [get this (apiUrl this ++ "/validate-contract?"
                       ++ validateQueryWith contract segment phone)])%list)
  /\ paramNames (validateQueryWith contract segment phone)
     = ["contrato"; "segmento"; "telefone"].
Proof.
  intros Hen.
  rewrite (CpcFacts.checkAcionamento_enabled _ _ _ _ _ Hen).
  rewrite (CpcFacts.validateContract_enabled _ _ _ _ _ Hen).
  cbn [snd called calls].
  unfold checkRequest, validateRequest, checkQuery, validateQueryWith.
  rewrite (encodeURIComponent_digits _ (formatPhoneForPartner_fixed phone)).
  split; [reflexivity|].
  split; [apply paramNames_checkQuery|].
  split; [|apply paramNames_validateQueryWith].
  intros Hphone. destruct phone as [|a phone]; [contradiction|].
  cbn [append]. reflexivity.
Qed.

Lemma queries_have_three_parameters_witness :
  url (last (calls (snd (checkAcionamento demo "A&B=1" "+55 (11) 91234-5678"
                           "3 4" accepting)))
         (get demo ""))
  = "https://partner.example/api/check-acionamento?contrato=A%26B%3D1&telefone=11912345678&segmento=3%204"
  /\ url (last (calls (snd (checkAcionamento demo "A&B=1" "" "3 4"
                              accepting)))
            (get demo ""))
     = "https://partner.example/api/check-acionamento?contrato=A%26B%3D1&telefone=&segmento=3%204"
  /\ url (last (calls (snd (validateContract demo "A&B=1" "3 4"
                              (Some "+55 (11) 91234-5678") accepting)))
            (get demo ""))
     = "https://partner.example/api/validate-contract?contrato=A%26B%3D1&segmento=3%204&telefone=11912345678".
Proof.
  split; [|split].
  - rewrite (proj1 (queries_have_three_parameters demo "A&B=1"
                      "+55 (11) 91234-5678" "3 4" accepting eq_refl)).
    reflexivity.
  - rewrite (proj1 (queries_have_three_parameters demo "A&B=1"
                      "" "3 4" accepting eq_refl)).
    reflexivity.
  - rewrite (proj1 (proj2 (proj2
               (queries_have_three_parameters demo "A&B=1"
                  "+55 (11) 91234-5678" "3 4" accepting eq_refl)))
               ltac:(discriminate)).
    reflexivity.
Defined.

(** ** The decision *)

Lemma failureMessage_not_empty (c : Cause) : failureMessage c <> "".
Proof. destruct c as [st [[|a m]|]| |detail]; discriminate. Qed.

(** X4: With the gate enabled, a partner call that fails in transport denies
    the contact, at the first step or, after a successful validation, at the
    second: canContact resolves to allowed=false, and its reason is the
    message of the failure, which is never empty. *)
Theorem canContact_fails_closed
    (this : t) (contract phone segment : string) (w : World)
    (e : AxiosError) :
  isEnabled this = true ->
  partner w (calls w) (validateRequest this contract segment (Some phone))
  = inl e
  \/ (sucesso
        (normalized
           (partner w (calls w)
              (validateRequest this contract segment (Some phone))))
      = true
      /\ partner w
           (calls w ++ [validateRequest this contract segment (Some phone)])
           (checkRequest this contract phone segment)
         = inl e) ->
  exists w',
    canContact this contract phone segment w
    = (Resolved {| allowed := false; reason := failureMessage (cause e) |},
       w')
    /\ failureMessage (cause e) <> "".
Proof.
  intros Hen H.
  rewrite (CpcFacts.canContact_enabled this contract phone segment w Hen).
  destruct H as [Hv|[Hv Hc]].
  - rewrite Hv. cbn [normalized sucesso mensagem negb].
    eexists. split; [reflexivity | apply failureMessage_not_empty].
  - rewrite Hv, Hc. cbn [normalized sucesso mensagem negb].
    eexists. split; [reflexivity | apply failureMessage_not_empty].
Qed.

Lemma canContact_fails_closed_witness :
  exists w',
    canContact demo "C-1001" "5511912345678" "3" unreachable
    = (Resolved
         {| allowed := false;
            reason := "API CPC indispon" ++ String Js.iacute "vel - timeout" |},
       w').
Proof.
  destruct (canContact_fails_closed demo "C-1001" "5511912345678" "3"
              unreachable
              {| response := None; request := true;
                 message := "timeout of 30000ms exceeded" |}
              eq_refl (or_introl eq_refl))
    as (w' & Hrun & _).
  exists w'. exact Hrun.
Defined.

(** X5: With the gate enabled, canContact allows exactly when both partner
    answers, to validate-contract and then to check-acionamento, have
    sucesso=true; it has then made both calls, in this order. *)
Theorem canContact_allows_iff
    (this : t) (contract phone segment : string) (w : World) :
  isEnabled this = true ->
  let v := validateRequest this contract segment (Some phone) in
  let c := checkRequest this contract phone segment in
  exists r w',
    canContact this contract phone segment w = (Resolved r, w')
    /\ (allowed r = true <->
        sucesso (normalized (partner w (calls w) v)) = true
        /\ sucesso (normalized (partner w (calls w ++ [v]) c)) = true)
    /\ (allowed r = true ->
        reason r = "Cliente pode ser acionado" /\ w' = called w [v; c]).
Proof.
  intros Hen v c.
  pose proof (CpcFacts.canContact_enabled this contract phone segment w Hen)
    as Hcan.
  cbv zeta in Hcan. fold v c in Hcan. rewrite Hcan.
  destruct (sucesso (normalized (partner w (calls w) v)));
    [destruct (sucesso (normalized (partner w (calls w ++ [v]) c)))|];
    cbn [negb]; do 2 eexists; (split; [reflexivity|]);
    cbn [allowed reason]; intuition discriminate.
Qed.

Lemma canContact_allows_iff_witness :
  exists r w',
    canContact demo "C-1001" "5511912345678" "3" accepting = (Resolved r, w')
    /\ allowed r = true.
Proof.
  destruct (canContact_allows_iff demo "C-1001" "5511912345678" "3"
              accepting eq_refl)
    as (r & w' & Hrun & Hiff & _).
  exists r, w'. split; [exact Hrun|].
  apply Hiff. split; reflexivity.
Defined.

(** ** The configuration *)

(** X6: The gate is enabled exactly when CPC_API_ENABLED is the string "true"
    and CPC_API_URL is set to a string that is not empty; that string is
    then the base URL. *)
Theorem isEnabled_iff (configService : ConfigService) :
  isEnabled (constructor configService) = true <->
  configService "CPC_API_ENABLED" = Some "true"
  /\ exists u, configService "CPC_API_URL" = Some u
               /\ u <> ""
               /\ apiUrl (constructor configService) = u.
Proof.
  unfold isEnabled, constructor. cbn [enabled apiUrl]. split.
  - intros H. apply andb_prop in H as [Hflag Hurl]. split.
    + destruct (configService "CPC_API_ENABLED") as [v|]; [|discriminate].
      apply String.eqb_eq in Hflag. now subst.
    + destruct (configService "CPC_API_URL") as [url|];
        cbn [Js.orElse] in *.
      * destruct (url =? "") eqn:Hu; [discriminate Hurl|].
        exists url. repeat split. now apply String.eqb_neq.
      * discriminate Hurl.
  - intros [Hflag (u & Hurl & Hu & _)]. rewrite Hflag, Hurl.
    cbn [Js.orElse]. apply String.eqb_neq in Hu. rewrite Hu.
    cbn. now rewrite Hu.
Qed.

End CpcMore.

(** * Further properties of the contact directory *)

Module ContactsMore.

Import ContactsService ContactsSpec.

(** ** Lookups *)

Lemma find_id_none (i : Z) (l : list Contact.t) :
  find (Prisma.hasId i) l = None <->
  forall c, In c l -> Contact.id c <> i.
Proof.
  split.
  - intros H c Hin Hc. pose proof (find_none _ _ H c Hin) as Hf.
    unfold Prisma.hasId in Hf. lia.
  - intros H. destruct (find (Prisma.hasId i) l) as [c|] eqn:E;
      [|reflexivity].
    apply ContactsFacts.find_hasId in E as [Hin Hc]. now destruct (H c Hin).
Qed.

Lemma find_phone_none (p : string) (l : list Contact.t) :
  find (Prisma.hasPhone p) l = None <->
  forall c, In c l -> Contact.phone c <> p.
Proof.
  split.
  - intros H c Hin Hc. pose proof (find_none _ _ H c Hin) as Hf.
    unfold Prisma.hasPhone in Hf. apply String.eqb_neq in Hf. contradiction.
  - intros H. destruct (find (Prisma.hasPhone p) l) as [c|] eqn:E;
      [|reflexivity].
    apply ContactsFacts.find_hasPhone in E as [Hin Hc]. now destruct (H c Hin).
Qed.

(** X7: findOne resolves to a contact of the table with the id when there is
    one, and otherwise rejects with the NotFoundException that names the id;
    findByPhone resolves in both cases, to a contact with the phone or to
    nothing.  Neither changes the database. *)
Theorem lookups (id : Z) (phone : string) (w : World) :
  ((exists c, findOne id w = (Resolved c, w)
              /\ In c (contacts w) /\ Contact.id c = id)
   \/ (findOne id w = (Rejected (NotFoundException (idNotFound id)), w)
       /\ forall c, In c (contacts w) -> Contact.id c <> id))
  /\ ((exists c, findByPhone phone w = (Resolved (Some c), w)
                 /\ In c (contacts w) /\ Contact.phone c = phone)
      \/ (findByPhone phone w = (Resolved None, w)
          /\ forall c, In c (contacts w) -> Contact.phone c <> phone)).
Proof.
  unfold findOne, findByPhone, await, Prisma.contact_findUnique_id,
    Prisma.contact_findFirst_phone, resolve, throw, idNotFound.
  split.
  - destruct (find (Prisma.hasId id) (contacts w)) as [c|] eqn:E.
    + left. exists c. split; [reflexivity|].
      now apply ContactsFacts.find_hasId.
    + right. split; [reflexivity | now apply find_id_none].
  - destruct (find (Prisma.hasPhone phone) (contacts w)) as [c|] eqn:E.
    + left. exists c. split; [reflexivity|].
      now apply ContactsFacts.find_hasPhone.
    + right. split; [reflexivity | now apply find_phone_none].
Qed.

(** ** Writes on a key that is absent *)

(** X8: When no contact has the id, update and remove reject with the
    NotFoundException of the id; when no contact has the phone,
    updateByPhone rejects with that of the phone.  None of them writes:
    contacts and conversations are as before. *)
Theorem absent_key_writes_nothing
    (id : Z) (phone : string) (patch : UpdateContactDto.t) (w : World) :
  (forall c, In c (contacts w) -> Contact.id c <> id) ->
  (forall c, In c (contacts w) -> Contact.phone c <> phone) ->
  update id patch w = (Rejected (NotFoundException (idNotFound id)), w)
  /\ remove id w = (Rejected (NotFoundException (idNotFound id)), w)
  /\ updateByPhone phone patch w
     = (Rejected (NotFoundException (phoneNotFound phone)), w).
Proof.
  intros Hid Hphone.
  apply find_id_none in Hid. apply find_phone_none in Hphone.
  unfold update, remove, updateByPhone, findOne, findByPhone, await,
    Prisma.contact_findUnique_id, Prisma.contact_findFirst_phone, throw.
  rewrite Hid, Hphone. repeat split.
Qed.

Ltac nobody :=
  cbn [contacts In]; intros c H;
  repeat (destruct H as [<-|H]; [discriminate|]); contradiction.

Lemma absent_key_writes_nothing_witness :
  update 9 markCPC office
  = (Rejected (NotFoundException (idNotFound 9)), office)
  /\ updateByPhone "5531900000000" markCPC office
     = (Rejected (NotFoundException (phoneNotFound "5531900000000")), office).
Proof.
  destruct (absent_key_writes_nothing 9 "5531900000000" markCPC office
              ltac:(nobody) ltac:(nobody))
    as (Hupdate & _ & Hphone).
  split; assumption.
Defined.

(** ** remove *)

Lemma find_id_after_delete (i j : Z) (l : list Contact.t) :
  j <> i ->
  find (Prisma.hasId j) (filter (fun c => negb (Prisma.hasId i c)) l)
  = find (Prisma.hasId j) l.
Proof.
  intros Hji. induction l as [|x l IH]; [reflexivity|].
  cbn [filter find].
  destruct (Prisma.hasId i x) eqn:Hi; destruct (Prisma.hasId j x) eqn:Hj;
    cbn [negb find]; rewrite ?Hj; try reflexivity; try exact IH.
  unfold Prisma.hasId in Hi, Hj. lia.
Qed.

Lemma find_id_deleted (i : Z) (l : list Contact.t) :
  find (Prisma.hasId i) (filter (fun c => negb (Prisma.hasId i c)) l) = None.
Proof.
  apply find_id_none. intros c Hin Hc.
  apply filter_In in Hin as [_ Hneg]. unfold Prisma.hasId in Hneg.
  rewrite Hc, Z.eqb_refl in Hneg. discriminate.
Qed.

(** X9: remove of a contact that findOne finds resolves to that contact; the id
    is then not found, every other id is found as before, and the
    conversations are left as they were. *)
Theorem remove_existing (id : Z) (w : World) (c : Contact.t) :
  findOne id w = (Resolved c, w) ->
  exists w',
    remove id w = (Resolved c, w')
    /\ findOne id w' = (Rejected (NotFoundException (idNotFound id)), w')
    /\ (forall j, j <> id -> fst (findOne j w') = fst (findOne j w))
    /\ conversations w' = conversations w.
Proof.
  intros Hfind.
  assert (Hid : find (Prisma.hasId id) (contacts w) = Some c).
  { unfold findOne, await, Prisma.contact_findUnique_id in Hfind.
    destruct (find (Prisma.hasId id) (contacts w)); [|discriminate].
    unfold resolve in Hfind. congruence. }
  unfold remove. unfold await at 1. rewrite Hfind.
  unfold Prisma.contact_delete. rewrite Hid.
  eexists. split; [reflexivity|].
  unfold findOne, await, Prisma.contact_findUnique_id, throw, idNotFound.
  cbn [contacts conversations]. split; [|split; [|reflexivity]].
  - now rewrite find_id_deleted.
  - intros j Hj. rewrite (find_id_after_delete id j _ Hj).
    destruct (find (Prisma.hasId j) (contacts w)); reflexivity.
Qed.

Lemma remove_existing_witness :
  exists w',
    remove 1 office = (Resolved ana, w')
    /\ findOne 1 w' = (Rejected (NotFoundException (idNotFound 1)), w')
    /\ fst (findOne 2 w') = Resolved bruno
    /\ conversations w' = conversations office.
Proof.
  destruct (remove_existing 1 office ana eq_refl)
    as (w' & Hrun & Hgone & Hothers & Hconv).
  exists w'. repeat split; try assumption.
  rewrite (Hothers 2 ltac:(discriminate)). reflexivity.
Defined.

(** ** What each write does to the database *)

Lemma create_existing_run
    (dto : CreateContactDto.t) (w : World) (e e' : Contact.t) :
  find (Prisma.hasPhone (CreateContactDto.phone dto)) (contacts w) = Some e ->
  find (Prisma.hasId (Contact.id e)) (contacts w) = Some e' ->
  create dto w
  = (Resolved (ContactData.apply (ContactData.ofCreate dto) e'),
     {| contacts :=
          Prisma.writeRow (Contact.id e) (ContactData.ofCreate dto)
            (contacts w);
        conversations :=
          if nameIsPresent (CreateContactDto.name dto) then
            map (rewritePlaceholder "Desconhecido"
                   (CreateContactDto.phone dto)
                   (the (CreateContactDto.name dto)))
              (conversations w)
          else conversations w;
        nextId := nextId w; now := now w |}).
Proof.
  intros Hp Hid. pose proof (ContactsFacts.find_hasPhone _ _ _ Hp) as [_ He].
  unfold create. unfold await at 1. unfold Prisma.contact_findUnique_phone.
  rewrite Hp. unfold await, Prisma.contact_update. rewrite Hid, He.
  destruct (nameIsPresent (CreateContactDto.name dto)); [reflexivity|].
  destruct w; reflexivity.
Qed.

Lemma create_new_run (dto : CreateContactDto.t) (w : World) :
  find (Prisma.hasPhone (CreateContactDto.phone dto)) (contacts w) = None ->
  create dto w
  = (Resolved (ContactData.apply (ContactData.ofCreate dto) (Prisma.freshRow w)),
     {| contacts :=
          (contacts w
           ++ [ContactData.apply (ContactData.ofCreate dto)
                 (Prisma.freshRow w)])%list;
        conversations :=
          if nameIsPresent (CreateContactDto.name dto) then
            map (rewritePlaceholder "Desconhecido"
                   (CreateContactDto.phone dto)
                   (the (CreateContactDto.name dto)))
              (conversations w)
          else conversations w;
        nextId := (nextId w + 1)%Z; now := now w |}).
Proof.
  intros Hp.
  unfold create. unfold await at 1. unfold Prisma.contact_findUnique_phone.
  rewrite Hp. unfold await, Prisma.contact_create.
  destruct (nameIsPresent (CreateContactDto.name dto)); reflexivity.
Qed.

Lemma update_run
    (id : Z) (patch : UpdateContactDto.t) (w : World) (c : Contact.t) :
  find (Prisma.hasId id) (contacts w) = Some c ->
  update id patch w
  = (Resolved (ContactData.apply (ContactData.ofUpdate patch) c),
     {| contacts :=
          Prisma.writeRow id (ContactData.ofUpdate patch) (contacts w);
        conversations :=
          if nameChanged (UpdateContactDto.name patch) c then
            map (rewriteAll (Contact.phone c)
                   (the (UpdateContactDto.name patch)))
              (conversations w)
          else conversations w;
        nextId := nextId w; now := now w |}).
Proof.
  intros Hid.
  unfold update, findOne, await, Prisma.contact_findUnique_id,
    Prisma.contact_update, resolve.
  rewrite Hid. cbv beta iota. rewrite Hid.
  destruct (nameChanged (UpdateContactDto.name patch) c); reflexivity.
Qed.

Lemma updateByPhone_run
    (phone : string) (patch : UpdateContactDto.t) (w : World)
    (c c' : Contact.t) :
  find (Prisma.hasPhone phone) (contacts w) = Some c ->
  find (Prisma.hasId (Contact.id c)) (contacts w) = Some c' ->
  exists data,
    updateByPhone phone patch w
    = (Resolved (ContactData.apply data c'),
       {| contacts := Prisma.writeRow (Contact.id c) data (contacts w);
          conversations :=
            if nameChanged (UpdateContactDto.name patch) c then
              map (rewriteAll phone (the (UpdateContactDto.name patch)))
                (conversations w)
            else conversations w;
          nextId := nextId w; now := now w |})
    /\ ContactData.phone data = None
    /\ ContactData.name data = UpdateContactDto.name patch
    /\ ContactData.cpf data = UpdateContactDto.cpf patch
    /\ ContactData.segment data = UpdateContactDto.segment patch
    /\ ContactData.isCPC data = UpdateContactDto.isCPC patch
    /\ ContactData.lastCPCAt data
       = match UpdateContactDto.isCPC patch with
         | Some true => Some (Some (now w))
         | Some false => Some None
         | None => None
         end
    /\ ContactData.isNameManual data
       = if nameChanged (UpdateContactDto.name patch) c then Some true
         else None.
Proof.
  intros Hp Hid.
  unfold updateByPhone, findByPhone. unfold await at 1.
  unfold Prisma.contact_findFirst_phone. rewrite Hp.
  destruct (UpdateContactDto.isCPC patch) as [[|]|] eqn:HisCPC;
    destruct (nameChanged (UpdateContactDto.name patch) c) eqn:Hname;
    unfold await, newDate, resolve, Prisma.contact_update,
      Prisma.conversation_updateMany;
    cbn [contacts]; rewrite Hid;
    eexists; (split; [reflexivity|]);
    cbn [ContactData.phone ContactData.name ContactData.cpf
         ContactData.segment ContactData.isCPC
         ContactData.lastCPCAt ContactData.isNameManual
         ContactData.setLastCPCAt ContactData.setIsNameManual
         ContactData.ofUpdate];
    rewrite ?HisCPC; repeat split.
Qed.

(** ** create on a phone that is new *)

Lemma find_app_last {A} (f : A -> bool) (l : list A) (c : A) :
  find f l = None -> f c = true -> find f (l ++ [c]) = Some c.
Proof.
  induction l as [|x l IH]; cbn [find app]; intros Hl Hc.
  - now rewrite Hc.
  - destruct (f x); [discriminate | now apply IH].
Qed.

Lemma find_app_miss {A} (f : A -> bool) (l : list A) (c : A) :
  f c = false -> find f (l ++ [c]) = find f l.
Proof.
  intros Hc. induction l as [|x l IH]; cbn [find app].
  - now rewrite Hc.
  - destruct (f x); [reflexivity | exact IH].
Qed.

Lemma orKeepOpt_none {A} (new : option A) :
  ContactData.orKeepOpt new None = new.
Proof. destruct new; reflexivity. Qed.

(** X10: create for a phone that no contact has adds one row, at the end of the
    table, with the phone, name, cpf and segment of the input; findByPhone
    then finds it, and finds for every other phone what it found before. *)
Theorem create_new_phone (dto : CreateContactDto.t) (w : World) :
  (forall c, In c (contacts w) ->
             Contact.phone c <> CreateContactDto.phone dto) ->
  exists c w',
    create dto w = (Resolved c, w')
    /\ contacts w' = (contacts w ++ [c])%list
    /\ Contact.phone c = CreateContactDto.phone dto
    /\ Contact.name c = CreateContactDto.name dto
    /\ Contact.cpf c = CreateContactDto.cpf dto
    /\ Contact.segment c = CreateContactDto.segment dto
    /\ findByPhone (CreateContactDto.phone dto) w' = (Resolved (Some c), w')
    /\ (forall q, q <> CreateContactDto.phone dto ->
                  fst (findByPhone q w') = fst (findByPhone q w)).
Proof.
  intros Hnew. apply find_phone_none in Hnew.
  rewrite (create_new_run dto w Hnew).
  do 2 eexists. split; [reflexivity|].
  cbn [contacts]. split; [reflexivity|].
  unfold ContactData.apply, ContactData.ofCreate, Prisma.freshRow;
    cbn [Contact.phone Contact.name Contact.cpf Contact.segment
         ContactData.phone ContactData.name ContactData.cpf
         ContactData.segment ContactData.orKeep].
  rewrite !orKeepOpt_none.
  split; [reflexivity|]. split; [reflexivity|].
  split; [reflexivity|]. split; [reflexivity|].
  unfold findByPhone, Prisma.contact_findFirst_phone. cbn [contacts fst].
  split.
  - rewrite (find_app_last _ _ _ Hnew); [reflexivity|].
    unfold Prisma.hasPhone. cbn [Contact.phone]. apply String.eqb_refl.
  - intros q Hq. rewrite find_app_miss; [reflexivity|].
    unfold Prisma.hasPhone. cbn [Contact.phone].
    apply String.eqb_neq. congruence.
Qed.

Lemma create_new_phone_witness :
  exists c w',
    create (named "5531900000000" "Carla") office = (Resolved c, w')
    /\ contacts w' = [ana; bruno; c]
    /\ Contact.name c = Some "Carla"
    /\ findByPhone "5531900000000" w' = (Resolved (Some c), w').
Proof.
  destruct (create_new_phone (named "5531900000000" "Carla") office
              ltac:(nobody))
    as (c & w' & Hrun & Hrows & _ & Hname & _ & _ & Hfind & _).
  exists c, w'. repeat split; assumption.
Defined.

(** ** create twice *)

Lemma apply_idempotent (d : ContactData.t) (c : Contact.t) :
  ContactData.apply d (ContactData.apply d c) = ContactData.apply d c.
Proof.
  destruct d as [[p|] [n|] [f|] [s|] [i|] [t|] [m|]]; reflexivity.
Qed.

Lemma writeRow_idempotent (i : Z) (d : ContactData.t) (l : list Contact.t) :
  Prisma.writeRow i d (Prisma.writeRow i d l) = Prisma.writeRow i d l.
Proof.
  induction l as [|x l IH]; [reflexivity|]. cbn [Prisma.writeRow].
  destruct (Prisma.hasId i x) eqn:Hx; cbn [Prisma.writeRow].
  - unfold Prisma.hasId in *. rewrite ContactsFacts.apply_id, Hx.
    now rewrite apply_idempotent.
  - now rewrite Hx, IH.
Qed.

Lemma writeRow_last (i : Z) (d : ContactData.t) (l : list Contact.t)
    (c : Contact.t) :
  find (Prisma.hasId i) l = None -> Contact.id c = i ->
  Prisma.writeRow i d (l ++ [c]) = (l ++ [ContactData.apply d c])%list.
Proof.
  intros Hl Hc. induction l as [|x l IH]; cbn [Prisma.writeRow app find] in *.
  - unfold Prisma.hasId. now rewrite Hc, Z.eqb_refl.
  - destruct (Prisma.hasId i x); [discriminate|]. now rewrite IH.
Qed.

Lemma rewritePlaceholder_idempotent (ph p n : string) (cv : Conversation.t) :
  rewritePlaceholder ph p n (rewritePlaceholder ph p n cv)
  = rewritePlaceholder ph p n cv.
Proof.
  unfold rewritePlaceholder.
  destruct ((Conversation.contactPhone cv =? p)
            && (Conversation.contactName cv =? ph)) eqn:E.
  - cbn [Conversation.contactPhone Conversation.contactName].
    destruct ((Conversation.contactPhone cv =? p) && (n =? ph)); reflexivity.
  - now rewrite E.
Qed.

Lemma fresh_id_not_found (w : World) :
  consistent w -> find (Prisma.hasId (nextId w)) (contacts w) = None.
Proof.
  intros [_ Hlt]. apply find_id_none. intros c Hin.
  rewrite Forall_forall in Hlt. specialize (Hlt c Hin). lia.
Qed.

(** X11: create is idempotent: on a database whose ids are its primary key, a
    second create with the same input resolves to the same contact as the
    first and leaves the database as the first left it; no second row
    appears for the phone. *)
Theorem create_idempotent (dto : CreateContactDto.t) (w : World) :
  consistent w ->
  create dto (snd (create dto w)) = create dto w.
Proof.
  intros Hcons. pose proof Hcons as [Hnd _].
  set (d := ContactData.ofCreate dto).
  assert (Hconv : forall l,
    (if nameIsPresent (CreateContactDto.name dto) then
       map (rewritePlaceholder "Desconhecido" (CreateContactDto.phone dto)
              (the (CreateContactDto.name dto)))
         (if nameIsPresent (CreateContactDto.name dto) then
            map (rewritePlaceholder "Desconhecido"
                   (CreateContactDto.phone dto)
                   (the (CreateContactDto.name dto))) l
          else l)
     else
       (if nameIsPresent (CreateContactDto.name dto) then
          map (rewritePlaceholder "Desconhecido" (CreateContactDto.phone dto)
                 (the (CreateContactDto.name dto))) l
        else l))
    = (if nameIsPresent (CreateContactDto.name dto) then
         map (rewritePlaceholder "Desconhecido" (CreateContactDto.phone dto)
                (the (CreateContactDto.name dto))) l
       else l)).
  { intros l. destruct (nameIsPresent (CreateContactDto.name dto));
      [|reflexivity].
    rewrite map_map. apply map_ext. intros cv.
    apply rewritePlaceholder_idempotent. }
  destruct (find (Prisma.hasPhone (CreateContactDto.phone dto)) (contacts w))
    as [e|] eqn:Hp.
  - pose proof (ContactsFacts.find_hasPhone _ _ _ Hp) as [Hin He].
    pose proof (ContactsFacts.find_by_own_id _ _ Hnd Hin) as Hid.
    rewrite (create_existing_run dto w e e Hp Hid). cbn [snd]. fold d.
    assert (Hp' : find (Prisma.hasPhone (CreateContactDto.phone dto))
                    (Prisma.writeRow (Contact.id e) d (contacts w))
                  = Some (ContactData.apply d e)).
    { apply ContactsFacts.find_phone_writeRow; [exact Hnd | exact Hp|].
      reflexivity. }
    assert (Hid' : find (Prisma.hasId (Contact.id (ContactData.apply d e)))
                     (Prisma.writeRow (Contact.id e) d (contacts w))
                   = Some (ContactData.apply d e)).
    { rewrite ContactsFacts.apply_id.
      now apply ContactsFacts.find_writeRow. }
    match goal with
    | |- create dto ?w1 = _ =>
        rewrite (create_existing_run dto w1 _ _ Hp' Hid')
    end.
    cbn [contacts conversations nextId now]. fold d.
    rewrite ContactsFacts.apply_id, apply_idempotent, writeRow_idempotent,
      Hconv.
    reflexivity.
  - rewrite (create_new_run dto w Hp). cbn [snd]. fold d.
    set (c := ContactData.apply d (Prisma.freshRow w)).
    pose proof (fresh_id_not_found w Hcons) as Hfresh.
    assert (Hp' : find (Prisma.hasPhone (CreateContactDto.phone dto))
                    (contacts w ++ [c]) = Some c).
    { apply find_app_last; [exact Hp|].
      unfold Prisma.hasPhone. apply String.eqb_refl. }
    assert (Hid' : find (Prisma.hasId (Contact.id c)) (contacts w ++ [c])
                   = Some c).
    { apply find_app_last; [exact Hfresh|].
      unfold Prisma.hasId at 1. apply Z.eqb_refl. }
    match goal with
    | |- create dto ?w1 = _ =>
        rewrite (create_existing_run dto w1 _ _ Hp' Hid')
    end.
    cbn [contacts conversations nextId now]. fold d.
    change (nextId w) with (Contact.id c) in Hfresh.
    rewrite (writeRow_last _ d _ c Hfresh eq_refl).
    assert (Hc : ContactData.apply d c = c)
      by (unfold c; apply apply_idempotent).
    rewrite !Hc, Hconv. reflexivity.
Qed.

Lemma create_idempotent_witness :
  create (named "5531900000000" "Carla")
    (snd (create (named "5531900000000" "Carla") office))
  = create (named "5531900000000" "Carla") office.
Proof.
  apply (create_idempotent (named "5531900000000" "Carla") office).
  split; [ContactsFacts.distinct_ids | repeat constructor].
Defined.

(** ** One row for a phone *)

Lemma same_id_same_row (l : list Contact.t) (c e : Contact.t) :
  NoDup (map Contact.id l) -> In c l -> In e l ->
  Contact.id c = Contact.id e -> c = e.
Proof.
  intros Hnd Hc He Hid.
  pose proof (ContactsFacts.find_by_own_id _ _ Hnd Hc) as Fc.
  pose proof (ContactsFacts.find_by_own_id _ _ Hnd He) as Fe.
  rewrite Hid in Fc. congruence.
Qed.

Lemma phones_writeRow (i : Z) (d : ContactData.t) (l : list Contact.t) :
  (forall c, In c l -> Prisma.hasId i c = true ->
             Contact.phone (ContactData.apply d c) = Contact.phone c) ->
  map Contact.phone (Prisma.writeRow i d l) = map Contact.phone l.
Proof.
  induction l as [|x l IH]; intros H; [reflexivity|].
  cbn [Prisma.writeRow]. destruct (Prisma.hasId i x) eqn:Hx; cbn [map].
  - now rewrite (H x (or_introl eq_refl) Hx).
  - rewrite IH; [reflexivity|]. intros c Hc. apply H. now right.
Qed.

Lemma phones_writeRow_no_phone (i : Z) (d : ContactData.t)
    (l : list Contact.t) :
  ContactData.phone d = None ->
  map Contact.phone (Prisma.writeRow i d l) = map Contact.phone l.
Proof.
  intros Hd. apply phones_writeRow. intros c _ _.
  unfold ContactData.apply. cbn [Contact.phone]. now rewrite Hd.
Qed.

Lemma NoDup_map_filter {A B} (f : A -> B) (g : A -> bool) (l : list A) :
  NoDup (map f l) -> NoDup (map f (filter g l)).
Proof.
  induction l as [|x l IH]; cbn [map filter]; intros H; [constructor|].
  inversion H as [|? ? Hx Hl]; subst.
  destruct (g x); cbn [map]; [|now apply IH].
  constructor; [|now apply IH].
  intros Hin. apply Hx. apply in_map_iff in Hin as (c & Hc & Hin).
  apply filter_In in Hin as [Hin _]. rewrite <- Hc. now apply in_map.
Qed.

(** X12: Every operation that writes keeps the keys of the Contact table: ids
    distinct and below the next id, and no two rows with one phone. *)
Theorem keyed_invariant :
  (forall dto, preserves keyed (create dto))
  /\ (forall id patch, preserves keyed (update id patch))
  /\ (forall phone patch, preserves keyed (updateByPhone phone patch))
  /\ (forall id, preserves keyed (remove id)).
Proof.
  destruct ContactsFacts.consistent_invariant as (Kc & Ku & Kp & Kr).
  split; [|split; [|split]].
  - intros dto w [Hcons Hph]. split; [now apply Kc|].
    pose proof Hcons as [Hnd _].
    destruct (find (Prisma.hasPhone (CreateContactDto.phone dto))
                (contacts w)) as [e|] eqn:Hp.
    + pose proof (ContactsFacts.find_hasPhone _ _ _ Hp) as [Hin He].
      pose proof (ContactsFacts.find_by_own_id _ _ Hnd Hin) as Hid.
      rewrite (create_existing_run dto w e e Hp Hid). cbn [snd contacts].
      rewrite phones_writeRow; [exact Hph|].
      intros c Hc Hci. unfold Prisma.hasId in Hci.
      assert (c = e) as -> by (apply (same_id_same_row (contacts w));
                               [assumption .. | lia]).
      now rewrite He.
    + rewrite (create_new_run dto w Hp). cbn [snd contacts].
      rewrite map_app. apply NoDup_app; [exact Hph | |].
      * repeat constructor. cbn. tauto.
      * intros q Hq [<-|[]]. cbn [Contact.phone ContactData.apply
                                  ContactData.ofCreate ContactData.phone
                                  ContactData.orKeep] in Hq.
        apply in_map_iff in Hq as (c & Hc & Hin).
        exact (proj1 (find_phone_none _ _) Hp c Hin Hc).
  - intros id patch w [Hcons Hph]. split; [now apply Ku|].
    destruct (find (Prisma.hasId id) (contacts w)) as [c|] eqn:Hid.
    + rewrite (update_run id patch w c Hid). cbn [snd contacts].
      now rewrite phones_writeRow_no_phone.
    + unfold update, findOne, await, Prisma.contact_findUnique_id, throw.
      rewrite Hid. exact Hph.
  - intros phone patch w [Hcons Hph]. split; [now apply Kp|].
    destruct (find (Prisma.hasPhone phone) (contacts w)) as [c|] eqn:Hp.
    + pose proof (ContactsFacts.find_hasPhone _ _ _ Hp) as [Hin _].
      destruct (ContactsFacts.find_some_id _ _ Hin) as [c' Hid].
      destruct (updateByPhone_run phone patch w c c' Hp Hid)
        as (data & Hrun & Hd & _).
      rewrite Hrun. cbn [snd contacts].
      now rewrite phones_writeRow_no_phone.
    + unfold updateByPhone, findByPhone, await,
        Prisma.contact_findFirst_phone, throw.
      rewrite Hp. exact Hph.
  - intros id w [Hcons Hph]. split; [now apply Kr|].
    unfold remove, findOne, await, Prisma.contact_findUnique_id,
      Prisma.contact_delete, resolve, throw.
    destruct (find (Prisma.hasId id) (contacts w)) as [c|] eqn:Hid;
      cbv beta iota; rewrite ?Hid; cbn [snd contacts]; [|exact Hph].
    now apply NoDup_map_filter.
Qed.

Lemma keyed_office : keyed office.
Proof.
  split; [exact ContactsFacts.consistent_office|].
  cbn [map contacts office Contact.phone ana bruno].
  repeat (constructor; [cbn [In]; intuition discriminate|]). constructor.
Qed.

(** ** Writes leave the other contacts alone *)

Lemma find_other_writeRow (i j : Z) (d : ContactData.t)
    (l : list Contact.t) :
  j <> i ->
  find (Prisma.hasId j) (Prisma.writeRow i d l) = find (Prisma.hasId j) l.
Proof.
  intros Hji. induction l as [|x l IH]; [reflexivity|].
  cbn [Prisma.writeRow find].
  destruct (Prisma.hasId i x) eqn:Hi; cbn [find].
  - unfold Prisma.hasId in *. rewrite ContactsFacts.apply_id.
    destruct (Z.eqb_spec (Contact.id x) j); [lia | reflexivity].
  - destruct (Prisma.hasId j x); [reflexivity | exact IH].
Qed.

Lemma findOne_same_row (j : Z) (w w' : World) :
  find (Prisma.hasId j) (contacts w') = find (Prisma.hasId j) (contacts w) ->
  fst (findOne j w') = fst (findOne j w).
Proof.
  intros H. unfold findOne, await, Prisma.contact_findUnique_id. rewrite H.
  destruct (find (Prisma.hasId j) (contacts w)); reflexivity.
Qed.

(** X13: update by id and updateByPhone write one row: findOne on any id other
    than the one updated (the id given, or the id of the contact found by
    the phone) resolves or rejects as it did before. *)
Theorem writes_leave_other_contacts
    (id : Z) (phone : string) (patch : UpdateContactDto.t) (w : World)
    (c : Contact.t) (j : Z) :
  j <> id ->
  findByPhone phone w = (Resolved (Some c), w) ->
  j <> Contact.id c ->
  fst (findOne j (snd (update id patch w))) = fst (findOne j w)
  /\ fst (findOne j (snd (updateByPhone phone patch w))) = fst (findOne j w).
Proof.
  intros Hj Hfind Hjc.
  assert (Hp : find (Prisma.hasPhone phone) (contacts w) = Some c).
  { unfold findByPhone, Prisma.contact_findFirst_phone in Hfind. congruence. }
  pose proof (ContactsFacts.find_hasPhone _ _ _ Hp) as [Hin _].
  destruct (ContactsFacts.find_some_id _ _ Hin) as [c' Hid].
  split; apply findOne_same_row.
  - destruct (find (Prisma.hasId id) (contacts w)) as [x|] eqn:Hx.
    + rewrite (update_run id patch w x Hx). cbn [snd contacts].
      now apply find_other_writeRow.
    + unfold update, findOne, await, Prisma.contact_findUnique_id, throw.
      rewrite Hx. reflexivity.
  - destruct (updateByPhone_run phone patch w c c' Hp Hid)
      as (data & Hrun & _).
    rewrite Hrun. cbn [snd contacts]. now apply find_other_writeRow.
Qed.

Lemma writes_leave_other_contacts_witness :
  fst (findOne 2 (snd (update 1 markCPC office))) = Resolved bruno
  /\ fst (findOne 2 (snd (updateByPhone "5511999999999" markCPC office)))
     = Resolved bruno.
Proof.
  exact (writes_leave_other_contacts 1 "5511999999999" markCPC office ana 2
           ltac:(discriminate) eq_refl ltac:(discriminate)).
Defined.

Lemma keyed_invariant_witness :
  keyed (snd (create (named "5531900000000" "Carla") office))
  /\ keyed (snd (remove 1 office)).
Proof.
  split.
  - exact (proj1 keyed_invariant (named "5531900000000" "Carla") office
             keyed_office).
  - exact (proj2 (proj2 (proj2 keyed_invariant)) 1 office keyed_office).
Defined.

(** ** Conversations *)

Lemma nameIsPresent_blank (name : option string) :
  (forall n, name = Some n -> Js.trim n = "") -> nameIsPresent name = false.
Proof.
  intros H. unfold nameIsPresent. destruct name as [n|]; [|reflexivity].
  rewrite (H n eq_refl). cbn. apply andb_false_r.
Qed.

Lemma nameChanged_same (name : option string) (c : Contact.t) :
  name = None \/ name = Contact.name c -> nameChanged name c = false.
Proof.
  unfold nameChanged. intros [->| ->]; [reflexivity|].
  destruct (Contact.name c) as [n|]; [|reflexivity].
  now rewrite String.eqb_refl.
Qed.

(** X14: A write that brings no new name rewrites no conversation,
    whatever the table holds: create with a name that is absent, empty or
    blank, and update or updateByPhone with a patch whose name is absent or
    equal to the stored name, leave the conversations as they were. *)
Theorem unchanged_name_leaves_conversations (w : World) :
  (forall dto,
     (forall n, CreateContactDto.name dto = Some n -> Js.trim n = "") ->
     conversations (snd (create dto w)) = conversations w)
  /\ (forall id patch c,
        findOne id w = (Resolved c, w) ->
        UpdateContactDto.name patch = None
        \/ UpdateContactDto.name patch = Contact.name c ->
        conversations (snd (update id patch w)) = conversations w)
  /\ (forall phone patch c,
        findByPhone phone w = (Resolved (Some c), w) ->
        UpdateContactDto.name patch = None
        \/ UpdateContactDto.name patch = Contact.name c ->
        conversations (snd (updateByPhone phone patch w)) = conversations w).
Proof.
  split; [|split].
  - intros dto Hblank.
    pose proof (nameIsPresent_blank _ Hblank) as Hpresent.
    destruct (find (Prisma.hasPhone (CreateContactDto.phone dto))
                (contacts w)) as [e|] eqn:Hp.
    + pose proof (ContactsFacts.find_hasPhone _ _ _ Hp) as [Hin _].
      destruct (ContactsFacts.find_some_id _ _ Hin) as [e' He'].
      rewrite (create_existing_run dto w e e' Hp He'). cbn [snd conversations].
      now rewrite Hpresent.
    + rewrite (create_new_run dto w Hp). cbn [snd conversations].
      now rewrite Hpresent.
  - intros id patch c Hfind Hsame.
    pose proof (nameChanged_same _ c Hsame) as Hchanged.
    assert (Hid : find (Prisma.hasId id) (contacts w) = Some c).
    { unfold findOne, await, Prisma.contact_findUnique_id in Hfind.
      destruct (find (Prisma.hasId id) (contacts w)); [|discriminate].
      unfold resolve in Hfind. congruence. }
    rewrite (update_run id patch w c Hid). cbn [snd conversations].
    now rewrite Hchanged.
  - intros phone patch c Hphone Hsame.
    pose proof (nameChanged_same _ c Hsame) as Hchanged.
    assert (Hp : find (Prisma.hasPhone phone) (contacts w) = Some c).
    { unfold findByPhone, Prisma.contact_findFirst_phone in Hphone.
      congruence. }
    pose proof (ContactsFacts.find_hasPhone _ _ _ Hp) as [Hin _].
    destruct (ContactsFacts.find_some_id _ _ Hin) as [c' Hc'].
    destruct (updateByPhone_run _ patch w c c' Hp Hc') as (data & Hrun & _).
    rewrite Hrun. cbn [snd conversations]. now rewrite Hchanged.
Qed.

Lemma unchanged_name_leaves_conversations_witness :
  conversations (snd (create (anonymous "5511999999999") inbox))
  = conversations inbox
  /\ conversations (snd (create (anonymous "5511999999999") office))
     = conversations office
  /\ conversations (snd (update 1 (rename "Ana Lima") office))
     = conversations office
  /\ conversations (snd (updateByPhone "5511999999999" (rename "Ana Lima")
                           office))
     = conversations office.
Proof.
  split; [|split; [|split]].
  - exact (proj1 (unchanged_name_leaves_conversations inbox)
             (anonymous "5511999999999") ltac:(discriminate)).
  - exact (proj1 (unchanged_name_leaves_conversations office)
             (anonymous "5511999999999") ltac:(discriminate)).
  - exact (proj1 (proj2 (unchanged_name_leaves_conversations office))
             1 (rename "Ana Lima") ana eq_refl (or_intror eq_refl)).
  - exact (proj2 (proj2 (unchanged_name_leaves_conversations office))
             "5511999999999" (rename "Ana Lima") ana eq_refl
             (or_intror eq_refl)).
Defined.

Section ConversationPhones.

Variable phones : list string.

Lemma listed_contact_update (i : Z) (d : ContactData.t) :
  preserves (listed phones) (Prisma.contact_update i d).
Proof.
  intros w H. unfold Prisma.contact_update.
  destruct (find (Prisma.hasId i) (contacts w)); exact H.
Qed.

Lemma listed_contact_create (d : ContactData.t) :
  preserves (listed phones) (Prisma.contact_create d).
Proof. intros w H. exact H. Qed.

Lemma listed_contact_delete (i : Z) :
  preserves (listed phones) (Prisma.contact_delete i).
Proof.
  intros w H. unfold Prisma.contact_delete.
  destruct (find (Prisma.hasId i) (contacts w)); exact H.
Qed.

Lemma listed_conversation_updateMany
    (where_ : Conversation.t -> bool) (n : string) :
  preserves (listed phones) (Prisma.conversation_updateMany where_ n).
Proof.
  intros w H. unfold listed, Prisma.conversation_updateMany in *.
  cbn [snd conversations]. rewrite map_map, <- H. apply map_ext.
  intros cv. destruct (where_ cv); reflexivity.
Qed.

Ltac lists :=
  repeat first
    [ apply preserves_await; [|intros ?]
    | apply preserves_resolve
    | apply preserves_throw
    | apply listed_contact_update
    | apply listed_contact_create
    | apply listed_contact_delete
    | apply listed_conversation_updateMany
    | match goal with
      | |- preserves _ (if ?b then _ else _) => destruct b
      | |- preserves _ (match ?x with _ => _ end) => destruct x
      end
    | (intros w H; exact H) ].

Lemma listed_invariant :
  (forall dto, preserves (listed phones) (create dto))
  /\ (forall id patch, preserves (listed phones) (update id patch))
  /\ (forall phone patch, preserves (listed phones) (updateByPhone phone patch))
  /\ (forall id, preserves (listed phones) (remove id)).
Proof.
  split; [|split; [|split]]; intros.
  - unfold create. lists.
  - unfold update, findOne. lists.
  - unfold updateByPhone, findByPhone. lists.
  - unfold remove, findOne. lists.
Qed.

End ConversationPhones.

(** X15: No operation adds a conversation, deletes one, or moves one to another
    phone: after create, update, updateByPhone and remove, resolved or
    rejected, the conversations have the phones they had, in the same
    order. *)
Theorem conversations_keep_their_phones (w : World) :
  (forall dto,
     map Conversation.contactPhone (conversations (snd (create dto w)))
     = map Conversation.contactPhone (conversations w))
  /\ (forall id patch,
        map Conversation.contactPhone
          (conversations (snd (update id patch w)))
        = map Conversation.contactPhone (conversations w))
  /\ (forall phone patch,
        map Conversation.contactPhone
          (conversations (snd (updateByPhone phone patch w)))
        = map Conversation.contactPhone (conversations w))
  /\ (forall id,
        conversations (snd (remove id w)) = conversations w).
Proof.
  destruct (listed_invariant
              (map Conversation.contactPhone (conversations w)))
    as (Hc & Hu & Hp & _).
  split; [|split; [|split]].
  - intros dto. now apply Hc.
  - intros id patch. now apply Hu.
  - intros phone patch. now apply Hp.
  - intros id. unfold remove, findOne, await, Prisma.contact_findUnique_id,
      Prisma.contact_delete, resolve, throw.
    destruct (find (Prisma.hasId id) (contacts w)) eqn:Hid;
      cbv beta iota; rewrite ?Hid; reflexivity.
Qed.

(** ** Fields that a write leaves out *)

Ltac stored_fields :=
  unfold ContactData.apply, ContactData.ofCreate, ContactData.ofUpdate;
  cbn [Contact.id Contact.phone Contact.name Contact.cpf Contact.segment
       Contact.isCPC Contact.lastCPCAt Contact.isNameManual Contact.createdAt
       ContactData.phone ContactData.name ContactData.cpf ContactData.segment
       ContactData.isCPC ContactData.lastCPCAt ContactData.isNameManual].

(** X16: updateByPhone derives nothing that the patch does not ask for: without
    isCPC in the patch, isCPC and lastCPCAt stay as stored; with a name that
    is absent or equal to the stored one, the name and isNameManual stay;
    cpf and segment stay when absent; id, phone and createdAt always stay. *)
Theorem updateByPhone_keeps_the_rest
    (phone : string) (patch : UpdateContactDto.t) (w : World)
    (c : Contact.t) :
  NoDup (map Contact.id (contacts w)) ->
  findByPhone phone w = (Resolved (Some c), w) ->
  exists updated w',
    updateByPhone phone patch w = (Resolved updated, w')
    /\ (UpdateContactDto.isCPC patch = None ->
        Contact.isCPC updated = Contact.isCPC c
        /\ Contact.lastCPCAt updated = Contact.lastCPCAt c)
    /\ (UpdateContactDto.name patch = None
        \/ UpdateContactDto.name patch = Contact.name c ->
        Contact.name updated = Contact.name c
        /\ Contact.isNameManual updated = Contact.isNameManual c)
    /\ (UpdateContactDto.cpf patch = None ->
        Contact.cpf updated = Contact.cpf c)
    /\ (UpdateContactDto.segment patch = None ->
        Contact.segment updated = Contact.segment c)
    /\ Contact.id updated = Contact.id c
    /\ Contact.phone updated = Contact.phone c
    /\ Contact.createdAt updated = Contact.createdAt c.
Proof.
  intros Hnd Hfind.
  assert (Hp : find (Prisma.hasPhone phone) (contacts w) = Some c).
  { unfold findByPhone, Prisma.contact_findFirst_phone in Hfind. congruence. }
  pose proof (ContactsFacts.find_hasPhone _ _ _ Hp) as [Hin _].
  pose proof (ContactsFacts.find_by_own_id _ _ Hnd Hin) as Hid.
  destruct (updateByPhone_run phone patch w c c Hp Hid)
    as (data & Hrun & Hphone & Hname & Hcpf & Hseg & HisCPC & Hlast & Hman).
  do 2 eexists. split; [exact Hrun|].
  stored_fields. rewrite Hphone, Hname, Hcpf, Hseg, HisCPC, Hlast, Hman.
  split; [intros ->; split; reflexivity|].
  split.
  { intros Hsame. rewrite (nameChanged_same _ c Hsame).
    destruct Hsame as [->| ->]; split; try reflexivity.
    now destruct (Contact.name c). }
  split; [intros ->; reflexivity|].
  split; [intros ->; reflexivity|].
  repeat split.
Qed.

Lemma updateByPhone_keeps_the_rest_witness :
  exists updated w',
    updateByPhone "5521988887777" (resegment 9) office = (Resolved updated, w')
    /\ Contact.isCPC updated = true
    /\ Contact.lastCPCAt updated = Some 1500%Z
    /\ Contact.isNameManual updated = false.
Proof.
  destruct (updateByPhone_keeps_the_rest "5521988887777" (resegment 9)
              office bruno ltac:(ContactsFacts.distinct_ids) eq_refl)
    as (updated & w' & Hrun & Hcpc & Hname & _).
  exists updated, w'. split; [exact Hrun|].
  destruct (Hcpc eq_refl) as [H1 H2].
  destruct (Hname (or_introl eq_refl)) as [_ H3].
  repeat split; assumption.
Defined.

(** X17: create on a contact that exists, and update by id, merge: name, cpf and
    segment (and isCPC for update) that the input leaves out keep their
    stored values, and neither changes the id, the phone or createdAt of
    the contact. *)
Theorem merge_keeps_omitted_fields
    (dto : CreateContactDto.t) (id : Z) (patch : UpdateContactDto.t)
    (w : World) (existing c : Contact.t) :
  NoDup (map Contact.id (contacts w)) ->
  findByPhone (CreateContactDto.phone dto) w = (Resolved (Some existing), w) ->
  findOne id w = (Resolved c, w) ->
  (exists updated w',
     create dto w = (Resolved updated, w')
     /\ (CreateContactDto.name dto = None ->
         Contact.name updated = Contact.name existing)
     /\ (CreateContactDto.cpf dto = None ->
         Contact.cpf updated = Contact.cpf existing)
     /\ (CreateContactDto.segment dto = None ->
         Contact.segment updated = Contact.segment existing)
     /\ Contact.id updated = Contact.id existing
     /\ Contact.phone updated = Contact.phone existing
     /\ Contact.createdAt updated = Contact.createdAt existing)
  /\ (exists updated w',
        update id patch w = (Resolved updated, w')
        /\ (UpdateContactDto.name patch = None ->
            Contact.name updated = Contact.name c)
        /\ (UpdateContactDto.cpf patch = None ->
            Contact.cpf updated = Contact.cpf c)
        /\ (UpdateContactDto.segment patch = None ->
            Contact.segment updated = Contact.segment c)
        /\ (UpdateContactDto.isCPC patch = None ->
            Contact.isCPC updated = Contact.isCPC c)
        /\ Contact.id updated = id
        /\ Contact.phone updated = Contact.phone c
        /\ Contact.createdAt updated = Contact.createdAt c).
Proof.
  intros Hnd Hphone Hfind.
  assert (Hp : find (Prisma.hasPhone (CreateContactDto.phone dto)) (contacts w)
               = Some existing).
  { unfold findByPhone, Prisma.contact_findFirst_phone in Hphone.
    congruence. }
  pose proof (ContactsFacts.find_hasPhone _ _ _ Hp) as [Hin He].
  pose proof (ContactsFacts.find_by_own_id _ _ Hnd Hin) as Hid.
  assert (Hc : find (Prisma.hasId id) (contacts w) = Some c).
  { unfold findOne, await, Prisma.contact_findUnique_id in Hfind.
    destruct (find (Prisma.hasId id) (contacts w)); [|discriminate].
    unfold resolve in Hfind. congruence. }
  pose proof (ContactsFacts.find_hasId _ _ _ Hc) as [_ Hcid].
  split.
  - rewrite (create_existing_run dto w existing existing Hp Hid).
    do 2 eexists. split; [reflexivity|]. stored_fields.
    split; [intros ->; reflexivity|].
    split; [intros ->; reflexivity|].
    split; [intros ->; reflexivity|].
    split; [reflexivity|]. split; [|reflexivity].
    cbn [ContactData.orKeep]. now rewrite He.
  - rewrite (update_run id patch w c Hc).
    do 2 eexists. split; [reflexivity|]. stored_fields.
    split; [intros ->; reflexivity|].
    split; [intros ->; reflexivity|].
    split; [intros ->; reflexivity|].
    split; [intros ->; reflexivity|].
    split; [exact Hcid|]. split; reflexivity.
Qed.

Lemma merge_keeps_omitted_fields_witness :
  exists updated w',
    create (anonymous "5511999999999") office = (Resolved updated, w')
    /\ Contact.name updated = Some "Ana Lima"
    /\ Contact.segment updated = Some 5%Z.
Proof.
  destruct (merge_keeps_omitted_fields (anonymous "5511999999999") 2
              markCPC office ana bruno ltac:(ContactsFacts.distinct_ids)
              eq_refl eq_refl)
    as ((updated & w' & Hrun & Hname & _ & Hseg & _) & _).
  exists updated, w'. split; [exact Hrun|].
  split; [exact (Hname eq_refl) | exact (Hseg eq_refl)].
Defined.

End ContactsMore.
